(** * micro-dns: the zone-resolution engine of [src/main.go]

    A shallow embedding of the zone parser ([loadZoneFile]), the reload
    supervisor ([reloadZoneIfChanged]), the query handler
    ([handleDNSRequest]) and the startup sequence ([main]), followed by the
    properties of the specification that concern them.

    Go strings are byte sequences: they are modelled by [string], whose
    characters are the 256 values of [ascii].  The map [records] is a
    [gmap string ZoneRecord]; a nil map reads like the empty one.  The
    files, the clock of the file system, the listener and the upstream
    server are inputs of the functions that use them.  Log output is left
    out, except that each diagnostic of the parser is a value.  The
    goroutines of the program are modelled one at a time: a handler runs
    against one state of the globals. *)

From Stdlib Require Import ZArith NArith Ascii String List Bool Lia.
From stdpp Require Import gmap strings list fin_maps.

Local Open Scope Z_scope.

(** ** The library functions the program calls

    These are not part of the repository.  Each definition follows the
    library function of the same name on the inputs the program gives it.
    Zone text and question names are taken to be ASCII: the functions of
    package [strings] are modelled on their ASCII path (white space is
    tab, LF, VT, FF, CR and space; letters are [A-Z] and [a-z]). *)

Module GoLib.

(** *** package strings *)

Definition isSpace (c : ascii) : bool := Ascii.is_space c.

Fixpoint TrimLeftSpace (s : string) : string :=
  match s with
  | String c s' => if isSpace c then TrimLeftSpace s' else s
  | EmptyString => EmptyString
  end.

Definition TrimSpace (s : string) : string :=
  String.rev (TrimLeftSpace (String.rev (TrimLeftSpace s))).

Definition Fields (s : string) : list string := String.words s.

Definition HasPrefix (s prefix : string) : bool := String.prefix prefix s.

Definition Join (elems : list string) (sep : string) : string :=
  String.concat sep elems.

Definition isUpperByte (c : ascii) : bool :=
  let n := N_of_ascii c in ((65 <=? n) && (n <=? 90))%N.

Definition isLowerByte (c : ascii) : bool :=
  let n := N_of_ascii c in ((97 <=? n) && (n <=? 122))%N.

Definition lowerByte (c : ascii) : ascii :=
  if isUpperByte c then ascii_of_N (N_of_ascii c + 32) else c.

Definition upperByte (c : ascii) : ascii :=
  if isLowerByte c then ascii_of_N (N_of_ascii c - 32) else c.

Fixpoint mapBytes (f : ascii -> ascii) (s : string) : string :=
  match s with
  | EmptyString => EmptyString
  | String c s' => String (f c) (mapBytes f s')
  end.

Definition ToLower (s : string) : string := mapBytes lowerByte s.
Definition ToUpper (s : string) : string := mapBytes upperByte s.

(** *** package strconv *)

Definition digitOf (c : ascii) : option N :=
  let n := N_of_ascii c in
  if ((48 <=? n) && (n <=? 57))%N then Some (n - 48)%N else None.

(** The value of a non-empty string of decimal digits. *)
Fixpoint digitsFrom (acc : N) (s : string) : option N :=
  match s with
  | EmptyString => Some acc
  | String c s' =>
      match digitOf c with
      | Some d => digitsFrom (acc * 10 + d)%N s'
      | None => None
      end
  end.

Definition decimal (s : string) : option N :=
  match s with
  | EmptyString => None
  | _ => digitsFrom 0%N s
  end.

(** [strconv.ParseUint(s, 10, 32)]: [None] stands for a non-nil error
    (syntax or range). *)
Definition ParseUint32 (s : string) : option N :=
  match decimal s with
  | Some n => if (n <=? 4294967295)%N then Some n else None
  | None => None
  end.

(** [strconv.Atoi] with a 64-bit [int]. *)
Definition Atoi (s : string) : option Z :=
  let '(neg, body) :=
    match s with
    | String "-"%char s' => (true, s')
    | String "+"%char s' => (false, s')
    | _ => (false, s)
    end in
  match decimal body with
  | Some n =>
      let v := if neg then - Z.of_N n else Z.of_N n in
      if (- 9223372036854775808 <=? v) && (v <=? 9223372036854775807)
      then Some v else None
  | None => None
  end.

(** The conversions [uint32(x)] and [uint16(x)]. *)
Definition uint32 (x : Z) : Z := x mod 4294967296.
Definition uint16 (x : Z) : Z := x mod 65536.

(** *** package github.com/miekg/dns *)

Definition backslash : ascii := ascii_of_N 92.
Definition dot : ascii := "."%char.

Fixpoint countLeading (c : ascii) (s : string) : nat :=
  match s with
  | String a s' => if Ascii.eqb a c then S (countLeading c s') else O
  | EmptyString => O
  end.

(** [dns.IsFqdn]: the name ends in a dot that is not escaped, that is, the
    final dot is preceded by an even number of backslashes. *)
Definition IsFqdn (s : string) : bool :=
  match String.rev s with
  | String c t => Ascii.eqb c dot && Nat.even (countLeading backslash t)
  | EmptyString => false
  end.

(** [dns.Fqdn] *)
Definition Fqdn (s : string) : string :=
  if IsFqdn s then s else s +:+ ".".

Definition isDigit (c : ascii) : bool :=
  match digitOf c with Some _ => true | None => false end.

Definition isDDD (s : string) : bool :=
  match s with
  | String a (String b (String c _)) => isDigit a && isDigit b && isDigit c
  | _ => false
  end.

Definition lenmsg : Z := 256.

(** The loop of [dns.IsDomainName]; [skip] counts the bytes of an escape
    sequence that the loop steps over, [i] is the index of the head of
    [s], [len] the length of the whole name. *)
Fixpoint isDomainNameLoop (skip : nat) (i off begin : Z) (wasDot : bool)
    (len : Z) (s : string) : bool :=
  match s with
  | EmptyString => true
  | String c rest =>
      match skip with
      | S k => isDomainNameLoop k (i + 1) off begin wasDot len rest
      | O =>
          if Ascii.eqb c backslash then
            if off + 1 >? lenmsg then false
            else if isDDD rest
                 then isDomainNameLoop 3 (i + 1) off (begin + 3) false len rest
                 else isDomainNameLoop 1 (i + 1) off (begin + 1) false len rest
          else if Ascii.eqb c dot then
            if (i =? 0) && (len >? 1) then false
            else if wasDot then false
            else
              let labelLen := i - begin in
              if labelLen >=? 64 then false
              else
                let off' := off + 1 + labelLen in
                if off' >? lenmsg then false
                else isDomainNameLoop 0 (i + 1) off' (i + 1) true len rest
          else isDomainNameLoop 0 (i + 1) off begin false len rest
      end
  end.

(** [dns.IsDomainName], its [ok] result. *)
Definition IsDomainName (s : string) : bool :=
  match s with
  | EmptyString => false
  | _ =>
      let s' := Fqdn s in
      isDomainNameLoop 0 0 0 0 false (Z.of_nat (String.length s')) s'
  end.

Definition TypeA : Z := 1.
Definition TypeCNAME : Z := 5.
Definition TypeMX : Z := 15.
Definition TypeTXT : Z := 16.
Definition TypeAAAA : Z := 28.
Definition ClassINET : Z := 1.
Definition RcodeSuccess : Z := 0.
Definition RcodeServerFailure : Z := 2.
Definition RcodeNotImplemented : Z := 4.
Definition OpcodeQuery : Z := 0.

(** *** package net *)

(** [net.IP] is a slice of bytes; the nil slice is [None] where a function
    can return it.  [net.ParseIP] parses with [netip.ParseAddr] and returns
    nil for an address with a zone. *)
Definition IP : Type := list N.

Definition IPv6len : nat := 16.
Definition IPv4len : nat := 4.

Definition isEmpty (s : string) : bool :=
  match s with EmptyString => true | String _ _ => false end.

Definition startsWith (c : ascii) (s : string) : bool :=
  match s with String a _ => Ascii.eqb a c | EmptyString => false end.

Fixpoint containsByte (c : ascii) (s : string) : bool :=
  match s with
  | EmptyString => false
  | String a s' => Ascii.eqb a c || containsByte c s'
  end.

(** The loop of [parseIPv4Fields]: [fields] holds the [pos] octets read so
    far, [val] and [digLen] describe the octet being read, [first] says that
    the head of [s] is the first byte and [prevDot] that the byte before it
    was a dot. *)
Fixpoint parseIPv4FieldsLoop (first prevDot : bool) (val : N) (digLen : nat)
    (fields : list N) (s : string) : option (list N) :=
  match s with
  | EmptyString =>
      if (length fields <? 3)%nat then None else Some (fields ++ [val])
  | String c rest =>
      match digitOf c with
      | Some d =>
          if (digLen =? 1)%nat && (val =? 0)%N then None
          else
            let val' := (val * 10 + d)%N in
            if (255 <? val')%N then None
            else parseIPv4FieldsLoop false false val' (S digLen) fields rest
      | None =>
          if Ascii.eqb c dot then
            if first || isEmpty rest || prevDot then None
            else if (length fields =? 3)%nat then None
            else parseIPv4FieldsLoop false true 0%N O (fields ++ [val]) rest
          else None
      end
  end.

Definition parseIPv4Fields (s : string) : option (list N) :=
  parseIPv4FieldsLoop true false 0%N O [] s.

Definition v4InV6Prefix : list N := [0; 0; 0; 0; 0; 0; 0; 0; 0; 0; 255; 255]%N.

(** [parseIPv4], in the 16-byte form that [ParseIP] returns. *)
Definition parseIPv4 (s : string) : option IP :=
  match parseIPv4Fields s with
  | Some p => Some (v4InV6Prefix ++ p)
  | None => None
  end.

Definition hexOf (c : ascii) : option N :=
  let n := N_of_ascii c in
  if ((48 <=? n) && (n <=? 57))%N then Some (n - 48)%N
  else if ((97 <=? n) && (n <=? 102))%N then Some (n - 97 + 10)%N
  else if ((65 <=? n) && (n <=? 70))%N then Some (n - 65 + 10)%N
  else None.

(** The hex number at the head of [s]: its value, the count [off] of its
    digits and the rest of [s]; [None] when there is no digit, a fifth
    digit, or a value above 16 bits. *)
Fixpoint hexGroupLoop (acc : N) (off : nat) (s : string)
    : option (N * nat * string) :=
  match s with
  | String ch rest =>
      match hexOf ch with
      | Some d =>
          let acc' := (acc * 16 + d)%N in
          if (3 <? off)%nat then None
          else if (65535 <? acc')%N then None
          else hexGroupLoop acc' (S off) rest
      | None => match off with O => None | _ => Some (acc, off, s) end
      end
  | EmptyString => match off with O => None | _ => Some (acc, off, s) end
  end.

Definition hexGroup (s : string) : option (N * nat * string) :=
  hexGroupLoop 0%N O s.

(** The loop of [parseIPv6]: [acc] holds the [i = length acc] bytes stored
    so far, [ellipsis] the position of the double colon.  The result is
    the state after the loop: the bytes, the ellipsis and the unread rest.
    Each pass stores at least two bytes, so sixteen passes are never used
    up. *)
Fixpoint parseIPv6Loop (fuel : nat) (acc : list N) (ellipsis : option nat)
    (s : string) : option (list N * option nat * string) :=
  match fuel with
  | O => Some (acc, ellipsis, s)
  | S fuel' =>
      let i := length acc in
      if (IPv6len <=? i)%nat then Some (acc, ellipsis, s)
      else
        match hexGroup s with
        | None => None
        | Some (n, off, rest) =>
            if startsWith dot rest then
              if (match ellipsis with None => true | Some _ => false end)
                 && negb (i =? 12)%nat then None
              else if (IPv6len <? i + IPv4len)%nat then None
              else
                match parseIPv4Fields s with
                | None => None
                | Some p => Some (acc ++ p, ellipsis, EmptyString)
                end
            else
              let acc' := acc ++ [N.shiftr n 8; N.land n 255]%N in
              match rest with
              | EmptyString => Some (acc', ellipsis, EmptyString)
              | String c1 EmptyString => None
              | String c1 (String c2 rest2 as rest1) =>
                  if negb (Ascii.eqb c1 ":"%char) then None
                  else if Ascii.eqb c2 ":"%char then
                    match ellipsis with
                    | Some _ => None
                    | None =>
                        match rest2 with
                        | EmptyString =>
                            Some (acc', Some (length acc'), EmptyString)
                        | _ => parseIPv6Loop fuel' acc' (Some (length acc')) rest2
                        end
                    end
                  else parseIPv6Loop fuel' acc' ellipsis rest1
              end
        end
  end.

(** After the loop: the whole string must be used, and the ellipsis stands
    for the missing bytes, at least two. *)
Definition finishIPv6 (st : list N * option nat * string) : option IP :=
  let '(acc, ellipsis, s) := st in
  match s with
  | String _ _ => None
  | EmptyString =>
      let i := length acc in
      if (i <? IPv6len)%nat then
        match ellipsis with
        | None => None
        | Some e => Some (firstn e acc ++ repeat 0%N (IPv6len - i) ++ skipn e acc)
        end
      else
        match ellipsis with
        | Some _ => None
        | None => Some acc
        end
  end.

(** [parseIPv6]; a literal with a zone (a percent sign) gives no [net.IP]. *)
Definition parseIPv6 (s : string) : option IP :=
  if containsByte "%"%char s then None
  else
    match s with
    | String ":" (String ":" EmptyString) => Some (repeat 0%N IPv6len)
    | String ":" (String ":" s') =>
        match parseIPv6Loop 16 [] (Some O) s' with
        | Some st => finishIPv6 st
        | None => None
        end
    | _ =>
        match parseIPv6Loop 16 [] None s with
        | Some st => finishIPv6 st
        | None => None
        end
    end.

(** The first dot, colon or percent sign of the literal decides which
    parser runs. *)
Fixpoint parseAddrDispatch (whole rest : string) : option IP :=
  match rest with
  | EmptyString => None
  | String c rest' =>
      if Ascii.eqb c dot then parseIPv4 whole
      else if Ascii.eqb c ":"%char then parseIPv6 whole
      else if Ascii.eqb c "%"%char then None
      else parseAddrDispatch whole rest'
  end.

(** [net.ParseIP]; [None] is the nil result. *)
Definition ParseIP (s : string) : option IP := parseAddrDispatch s s.

Definition isZeros (p : list N) : bool := forallb (N.eqb 0) p.

(** [IP.To4]; [None] is the nil result. *)
Definition To4 (ip : IP) : option IP :=
  if (length ip =? IPv4len)%nat then Some ip
  else if (length ip =? IPv6len)%nat
          && isZeros (firstn 10 ip)
          && (nth 10 ip 0 =? 255)%N
          && (nth 11 ip 0 =? 255)%N
  then Some (firstn 4 (skipn 12 ip))
  else None.

(** [net.ParseIP(s).To4()]: [To4] of the nil address is nil. *)
Definition ParseIP_To4 (s : string) : option IP :=
  match ParseIP s with
  | Some ip => To4 ip
  | None => None
  end.

(** *** package bufio *)

Definition MaxScanTokenSize : N := 65536.

Definition dropCR (s : string) : string :=
  match String.rev s with
  | String c t => if Ascii.eqb c (ascii_of_N 13) then String.rev t else s
  | EmptyString => s
  end.

(** The tokens that a [bufio.Scanner] with the default split function
    ([ScanLines]) and the default buffer delivers for the bytes [s], and
    whether it stopped at a line that does not fit the buffer
    ([bufio.ErrTooLong]).  [cur] is the current line reversed, [n] its
    length. *)
Fixpoint scanLoop (cur : string) (n : N) (s : string) : list string * bool :=
  match s with
  | EmptyString =>
      if (n =? 0)%N then ([], false)
      else if (MaxScanTokenSize <=? n)%N then ([], true)
      else ([dropCR (String.rev cur)], false)
  | String c rest =>
      if Ascii.eqb c (ascii_of_N 10) then
        if (MaxScanTokenSize <=? n)%N then ([], true)
        else
          let '(toks, long) := scanLoop EmptyString 0%N rest in
          (dropCR (String.rev cur) :: toks, long)
      else scanLoop (String c cur) (n + 1)%N rest
  end.

Definition scanLines (s : string) : list string * bool :=
  scanLoop EmptyString 0%N s.

End GoLib.

Import GoLib.

(** ** Data model *)

Record Config := mkConfig {
  ListenPort : string;
  HostsFile : string;
  LogLevel : string;
  PollFreq : Z;
  FallbackDNS : string
}.

(** The struct [Record] of the source; [Type_] is its field [Type]. *)
Record ZoneRecord := mkRecord {
  Type_ : string;
  TTL : Z;
  Data : string;
  Pref : Z
}.

(** The values of [time.Time] are instants on a line; the zero value of the
    variable [hostsFileModTime] is [zeroTime]. *)
Definition Instant : Type := Z.
Definition zeroTime : Instant := 0.
Definition After (t u : Instant) : bool := u <? t.

(** The package-level variables [records], [hostsFileModTime], [config]. *)
Record Globals := mkGlobals {
  records : gmap string ZoneRecord;
  hostsFileModTime : Instant;
  config : Config
}.

(** ** The world outside the process *)

Inductive error := ErrOpen | ErrRead | ErrTooLong | ErrListen.

(** What opening and reading a path gives: [os.Open] fails, or the reader
    delivers [content] and then ends with EOF or, when [readFails], with a
    read error. *)
Inductive File :=
| NoFile
| FileData (content : string) (readFails : bool).

Record World := mkWorld {
  Open : string -> File;
  Stat : string -> option Instant;
  Listen : string -> bool
}.

(** ** [loadZoneFile] *)

(** The diagnostics of the loop body, one per [log.Printf] in it. *)
Inductive Diagnostic :=
| TooFewFields
| InvalidTTL
| UnsupportedClass
| InvalidIP
| InvalidCNAMETarget
| MissingMXFields
| InvalidMXPreference
| InvalidMXHost
| UnsupportedType.

(** What one pass of the loop body does with the scanned line: nothing
    (blank or comment), a diagnostic and [continue], or the assignment
    [recs[name] = rec]. *)
Inductive LineOutcome :=
| Ignored
| Rejected (d : Diagnostic)
| Stored (name : string) (rec : ZoneRecord).

Definition field (fields : list string) (i : nat) : string :=
  nth i fields EmptyString.

Definition String_eqb (a b : string) : bool := bool_decide (a = b).

Definition parseLine (text : string) : LineOutcome :=
  let line := TrimSpace text in
  if String_eqb line EmptyString || HasPrefix line ";" || HasPrefix line "#" then Ignored
  else
    let fields := Fields line in
    if (length fields <? 5)%nat then Rejected TooFewFields
    else
      let name := Fqdn (field fields 0) in
      match ParseUint32 (field fields 1) with
      | None => Rejected InvalidTTL
      | Some ttl =>
          let class := ToUpper (field fields 2) in
          let rtype := ToUpper (field fields 3) in
          if negb (String_eqb class "IN") then Rejected UnsupportedClass
          else if String_eqb rtype "A" then
            match ParseIP (field fields 4) with
            | None => Rejected InvalidIP
            | Some _ =>
                Stored name (mkRecord "A" (uint32 (Z.of_N ttl)) (field fields 4) 0)
            end
          else if String_eqb rtype "CNAME" then
            let target := Fqdn (field fields 4) in
            if negb (IsDomainName target) then Rejected InvalidCNAMETarget
            else Stored name (mkRecord "CNAME" (uint32 (Z.of_N ttl)) target 0)
          else if String_eqb rtype "TXT" then
            let txt := Join (skipn 4 fields) " " in
            Stored name (mkRecord "TXT" (uint32 (Z.of_N ttl)) txt 0)
          else if String_eqb rtype "MX" then
            if (length fields <? 6)%nat then Rejected MissingMXFields
            else
              match Atoi (field fields 4) with
              | None => Rejected InvalidMXPreference
              | Some pref =>
                  let host := Fqdn (field fields 5) in
                  if negb (IsDomainName host) then Rejected InvalidMXHost
                  else
                    Stored name
                      (mkRecord "MX" (uint32 (Z.of_N ttl)) host (uint16 pref))
              end
          else Rejected UnsupportedType
      end.

(** One pass of the [for scanner.Scan()] loop on the map [recs]. *)
Definition scanStep (recs : gmap string ZoneRecord) (text : string)
    : gmap string ZoneRecord :=
  match parseLine text with
  | Stored name rec => <[name := rec]> recs
  | _ => recs
  end.

Definition loadLines (lines : list string) (recs : gmap string ZoneRecord)
    : gmap string ZoneRecord :=
  fold_left scanStep lines recs.

(** [loadZoneFile]: the map and the error it returns.  When the file cannot
    be opened the map is nil. *)
Definition loadZoneFile (w : World) (path : string)
    : gmap string ZoneRecord * option error :=
  match Open w path with
  | NoFile => (∅, Some ErrOpen)
  | FileData content readFails =>
      let '(lines, tooLong) := scanLines content in
      (loadLines lines ∅,
       if tooLong then Some ErrTooLong
       else if readFails then Some ErrRead
       else None)
  end.

(** ** [reloadZoneIfChanged] *)

(** One pass of the endless loop, after the sleep: [w] is the world the
    pass observes. *)
Definition reloadPass (w : World) (g : Globals) : Globals :=
  match Stat w (HostsFile (config g)) with
  | Some modTime =>
      if After modTime (hostsFileModTime g) then
        match loadZoneFile w (HostsFile (config g)) with
        | (newRecords, None) => mkGlobals newRecords modTime (config g)
        | (_, Some _) => g
        end
      else g
  | None => g
  end.

(** The loop has no exit: [reloadZoneIfChanged ws g] is the state of the
    globals after the passes that observe the worlds [ws], in order. *)
Definition reloadZoneIfChanged (ws : list World) (g : Globals) : Globals :=
  fold_left (fun g w => reloadPass w g) ws g.

(** ** [main] *)

(** How startup ends: [log.Fatalf] stops the process, or the reload
    goroutine is started and the server listens with the globals [g]. *)
Inductive Startup :=
| Fatal (e : error)
| Serving (g : Globals).

(** [main], from the configuration that [parseFlags] leaves in [config]. *)
Definition main (w : World) (cfg : Config) : Startup :=
  match loadZoneFile w (HostsFile cfg) with
  | (_, Some e) => Fatal e
  | (recs, None) =>
      let modTime :=
        match Stat w (HostsFile cfg) with
        | Some t => t
        | None => zeroTime
        end in
      if Listen w (ListenPort cfg) then Serving (mkGlobals recs modTime cfg)
      else Fatal ErrListen
  end.

(** ** DNS messages, as far as the handler reads and writes them *)

Record Question := mkQuestion {
  Name : string;
  Qtype : Z;
  Qclass : Z
}.

Record RR_Header := mkHdr {
  HName : string;
  Rrtype : Z;
  Class : Z;
  Ttl : Z
}.

(** The resource records the handler builds: [dns.A], [dns.CNAME],
    [dns.TXT] and [dns.MX]. *)
Inductive RR :=
| RR_A (Hdr : RR_Header) (A : option IP)
| RR_CNAME (Hdr : RR_Header) (Target : string)
| RR_TXT (Hdr : RR_Header) (Txt : list string)
| RR_MX (Hdr : RR_Header) (Preference : Z) (Mx : string).

(** [dns.Msg]; [Question_] is its field [Question]. *)
Record Msg := mkMsg {
  Id : Z;
  Response : bool;
  Opcode : Z;
  Authoritative : bool;
  RecursionDesired : bool;
  CheckingDisabled : bool;
  Rcode : Z;
  Question_ : list Question;
  Answer : list RR
}.

(** [new(dns.Msg)] *)
Definition newMsg : Msg := mkMsg 0 false 0 false false false 0 [] [].

(** [m.SetReply(request)] *)
Definition SetReply (m request : Msg) : Msg :=
  let isQuery := Opcode request =? OpcodeQuery in
  mkMsg (Id request) true (Opcode request) (Authoritative m)
        (if isQuery then RecursionDesired request else RecursionDesired m)
        (if isQuery then CheckingDisabled request else CheckingDisabled m)
        RcodeSuccess
        (match Question_ request with
         | q :: _ => [q]
         | [] => Question_ m
         end)
        (Answer m).

Definition setAuthoritative (m : Msg) (b : bool) : Msg :=
  mkMsg (Id m) (Response m) (Opcode m) b (RecursionDesired m)
        (CheckingDisabled m) (Rcode m) (Question_ m) (Answer m).

Definition setRcode (m : Msg) (rc : Z) : Msg :=
  mkMsg (Id m) (Response m) (Opcode m) (Authoritative m) (RecursionDesired m)
        (CheckingDisabled m) rc (Question_ m) (Answer m).

(** [m.Answer = append(m.Answer, rr)] *)
Definition appendAnswer (m : Msg) (rr : RR) : Msg :=
  mkMsg (Id m) (Response m) (Opcode m) (Authoritative m) (RecursionDesired m)
        (CheckingDisabled m) (Rcode m) (Question_ m) (Answer m ++ [rr]).

(** ** [handleDNSRequest] *)

(** The key of the map lookup: [dns.Fqdn(strings.ToLower(q.Name))]. *)
Definition lookupName (q : Question) : string := Fqdn (ToLower (Name q)).

(** The body of the loop over [r.Question], on the reply [m] under
    construction and the flag [answered]. *)
Definition answerQuestion (recs : gmap string ZoneRecord) (q : Question)
    (st : Msg * bool) : Msg * bool :=
  let '(m, answered) := st in
  let name := lookupName q in
  match recs !! name with
  | Some rec =>
      if Qtype q =? TypeA then
        if String_eqb (Type_ rec) "A" then
          (appendAnswer m
             (RR_A (mkHdr (Name q) TypeA ClassINET (TTL rec))
                   (ParseIP_To4 (Data rec))),
           true)
        else if String_eqb (Type_ rec) "CNAME" then
          (appendAnswer m
             (RR_CNAME (mkHdr (Name q) TypeCNAME ClassINET (TTL rec)) (Data rec)),
           true)
        else (m, answered)
      else if Qtype q =? TypeCNAME then
        if String_eqb (Type_ rec) "CNAME" then
          (appendAnswer m
             (RR_CNAME (mkHdr (Name q) TypeCNAME ClassINET (TTL rec)) (Data rec)),
           true)
        else (m, answered)
      else if Qtype q =? TypeTXT then
        if String_eqb (Type_ rec) "TXT" then
          (appendAnswer m
             (RR_TXT (mkHdr (Name q) TypeTXT ClassINET (TTL rec)) [Data rec]),
           true)
        else (m, answered)
      else if Qtype q =? TypeMX then
        if String_eqb (Type_ rec) "MX" then
          (appendAnswer m
             (RR_MX (mkHdr (Name q) TypeMX ClassINET (TTL rec))
                    (Pref rec) (Data rec)),
           true)
        else (m, answered)
      else (setRcode m RcodeNotImplemented, answered)
  | None => (m, answered)
  end.

Definition answerQuestions (recs : gmap string ZoneRecord)
    (qs : list Question) (st : Msg * bool) : Msg * bool :=
  fold_left (fun st q => answerQuestion recs q st) qs st.

(** What the handler does to the outside: the exchange with the upstream
    server ([forwardToFallback]) and the message it writes to the client. *)
Inductive Event :=
| Exchange (request : Msg) (address : string)
| WriteMsg (m : Msg).

(** [handleDNSRequest] for the request [r].  [upstream request address] is
    the result of [c.Exchange]: the reply, or [None] for a non-nil error. *)
Definition handleDNSRequest (g : Globals)
    (upstream : Msg -> string -> option Msg) (r : Msg) : list Event :=
  let m := setAuthoritative (SetReply newMsg r) true in
  let '(m, answered) := answerQuestions (records g) (Question_ r) (m, false) in
  if negb answered && negb (String_eqb (FallbackDNS (config g)) EmptyString) then
    match upstream r (FallbackDNS (config g)) with
    | Some resp => [Exchange r (FallbackDNS (config g)); WriteMsg resp]
    | None =>
        [Exchange r (FallbackDNS (config g));
         WriteMsg (setRcode m RcodeServerFailure)]
    end
  else [WriteMsg m].

(** The message the client receives. *)
Definition reply (evs : list Event) : option Msg :=
  last (omap (fun e => match e with WriteMsg m => Some m | _ => None end) evs).

(** Whether the fallback was attempted. *)
Definition forwarded (evs : list Event) : bool :=
  existsb (fun e => match e with Exchange _ _ => true | _ => false end) evs.

(** ** Notions used in the statements *)

(** The name has a byte in [A-Z]. *)
Fixpoint hasUpper (s : string) : bool :=
  match s with
  | EmptyString => false
  | String c s' => isUpperByte c || hasUpper s'
  end.

(** The record that the line [text] assigns to the key [k], if any. *)
Definition storesAt (k : string) (text : string) : option ZoneRecord :=
  match parseLine text with
  | Stored name rec => if decide (name = k) then Some rec else None
  | _ => None
  end.

(** The record of the last line of [lines] that assigns to [k]. *)
Fixpoint lastStored (k : string) (lines : list string) : option ZoneRecord :=
  match lines with
  | [] => None
  | text :: rest =>
      match lastStored k rest with
      | Some rec => Some rec
      | None => storesAt k text
      end
  end.

(** The lines that [loadZoneFile] passes to the loop body. *)
Definition scannedLines (w : World) (path : string) : list string :=
  match Open w path with
  | NoFile => []
  | FileData content _ => fst (scanLines content)
  end.

(** The question gets an answer from the map [recs]: the loop body sets
    [answered]. *)
Definition answersQuestion (recs : gmap string ZoneRecord) (q : Question) : bool :=
  snd (answerQuestion recs q (newMsg, false)).

(** The type of the question is none of A, CNAME, TXT, MX. *)
Definition otherQtype (q : Question) : bool :=
  negb (Qtype q =? TypeA) && negb (Qtype q =? TypeCNAME)
  && negb (Qtype q =? TypeTXT) && negb (Qtype q =? TypeMX).

(** The loop body takes the [default] branch of the switch. *)
Definition hitsNotImplemented (recs : gmap string ZoneRecord) (q : Question) : bool :=
  otherQtype q && bool_decide (is_Some (recs !! lookupName q)).

(** The reply before the loop. *)
Definition initialReply (r : Msg) : Msg :=
  setAuthoritative (SetReply newMsg r) true.

Global Arguments answerQuestion : simpl never.

Ltac split_answer :=
  unfold answersQuestion, answerQuestion;
  repeat (case_match; simplify_eq/=; try done).

(** A zone text from its lines, each ended by a line feed. *)
Definition LF : string := String (ascii_of_N 10) EmptyString.

Fixpoint unlines (lines : list string) : string :=
  match lines with
  | [] => EmptyString
  | l :: rest => l +:+ LF +:+ unlines rest
  end.

(** The reading of the startup rule under which a map with zero records
    counts as a failed initial load. *)
Definition initialLoadFails (w : World) (cfg : Config) : Prop :=
  Open w (HostsFile cfg) = NoFile \/ fst (loadZoneFile w (HostsFile cfg)) = ∅.

(** The zone of the README with the lines of the example scenarios, the
    world in which it is the zone file, and a request with one question. *)
Definition exampleZone : string :=
  unlines ["; zone of the resolver";
           "example.local.    300 IN A     127.0.0.1";
           "router.home.      300 IN A     192.168.1.1";
           "alias.local.      300 IN CNAME example.local.";
           "text.example.     300 IN TXT   This is a test TXT record";
           "mail.example.     300 IN MX    10 mailserver.local.";
           "Mixed.Case. 300 IN A 10.0.0.1";
           "bad.local. notanumber IN A 1.2.3.4"].

Definition exampleWorld : World :=
  mkWorld (fun _ => FileData exampleZone false) (fun _ => Some 10) (fun _ => true).

Definition exampleConfig (fallback : string) : Config :=
  mkConfig "1053" "zones.txt" "info" 5 fallback.

Definition exampleGlobals (fallback : string) : Globals :=
  mkGlobals (fst (loadZoneFile exampleWorld "zones.txt")) 10 (exampleConfig fallback).

Definition query (name : string) (qtype : Z) : Msg :=
  mkMsg 7 false OpcodeQuery false true false 0 [mkQuestion name qtype ClassINET] [].

Definition answersOf (evs : list Event) : option (Z * list RR) :=
  match reply evs with
  | Some m => Some (Rcode m, Answer m)
  | None => None
  end.

(** ** [parseFlags] *)

(** The values of the command-line flags after [flag.Parse]; a flag that is
    not given has its default, the empty string or zero. *)
Record Flags := mkFlags {
  flagConfig : string;
  flagPort : string;
  flagZones : string;
  flagFallback : string;
  flagPoll : Z
}.

(** [parseFlags]: [loadConfig path] is the value of [config] after the call
    [loadConfig(path)], whose error is dropped. *)
Definition parseFlags (loadConfig : string -> Config) (f : Flags) : Config :=
  let c := loadConfig (flagConfig f) in
  mkConfig
    (if negb (String_eqb (flagPort f) EmptyString) then flagPort f else ListenPort c)
    (if negb (String_eqb (flagZones f) EmptyString) then flagZones f else HostsFile c)
    (LogLevel c)
    (if 0 <? flagPoll f then flagPoll f else PollFreq c)
    (if negb (String_eqb (flagFallback f) EmptyString) then flagFallback f
     else FallbackDNS c).

(** ** Further notions used in the statements *)

(** The last byte of the name is a dot. *)
Definition endsWithDot (s : string) : bool :=
  match String.rev s with
  | String c _ => Ascii.eqb c dot
  | EmptyString => false
  end.

(** What the parser guarantees of a record it stores. *)
Definition validRecord (rec : ZoneRecord) : bool :=
  (0 <=? TTL rec) && (TTL rec <? 4294967296)
  && (0 <=? Pref rec) && (Pref rec <? 65536)
  && (if String_eqb (Type_ rec) "A" then
        (match ParseIP (Data rec) with Some _ => true | None => false end)
        && (Pref rec =? 0)
      else if String_eqb (Type_ rec) "CNAME" then
        IsDomainName (Data rec) && endsWithDot (Data rec) && (Pref rec =? 0)
      else if String_eqb (Type_ rec) "TXT" then
        negb (isEmpty (Data rec)) && (Pref rec =? 0)
      else if String_eqb (Type_ rec) "MX" then
        IsDomainName (Data rec) && endsWithDot (Data rec)
      else false).

(** The line makes the loop body assign to the map. *)
Definition isStoredLine (text : string) : bool :=
  match parseLine text with
  | Stored _ _ => true
  | _ => false
  end.

(** All bytes of the string are white space. *)
Fixpoint allSpace (s : string) : bool :=
  match s with
  | EmptyString => true
  | String c s' => isSpace c && allSpace s'
  end.

(** No byte of the string is white space. *)
Fixpoint noSpace (s : string) : bool :=
  match s with
  | EmptyString => true
  | String c s' => negb (isSpace c) && noSpace s'
  end.

(** A word as [strings.Fields] delivers it: not empty, no white space. *)
Definition isWord (s : string) : bool := negb (isEmpty s) && noSpace s.

(** The string has no line feed. *)
Definition noLF (s : string) : bool := negb (containsByte (ascii_of_N 10) s).

(** The header of a resource record and the name of its type. *)
Definition headerOf (rr : RR) : RR_Header :=
  match rr with
  | RR_A h _ => h
  | RR_CNAME h _ => h
  | RR_TXT h _ => h
  | RR_MX h _ _ => h
  end.

Definition typeNameOf (rr : RR) : string :=
  match rr with
  | RR_A _ _ => "A"
  | RR_CNAME _ _ => "CNAME"
  | RR_TXT _ _ => "TXT"
  | RR_MX _ _ _ => "MX"
  end.

Definition typeCodeOf (rr : RR) : Z :=
  match rr with
  | RR_A _ _ => TypeA
  | RR_CNAME _ _ => TypeCNAME
  | RR_TXT _ _ => TypeTXT
  | RR_MX _ _ _ => TypeMX
  end.

(** The carriage return, and a string of [n] copies of a byte. *)
Definition CR : string := String (ascii_of_N 13) EmptyString.

Fixpoint repeatByte (n : nat) (c : ascii) : string :=
  match n with
  | O => EmptyString
  | S n' => String c (repeatByte n' c)
  end.

(** The line fits the buffer of the scanner and has no line feed. *)
Definition scannableLine (l : string) : Prop :=
  noLF l = true /\ (N.of_nat (String.length l) < MaxScanTokenSize)%N.

(** The record that the loop body appends for the question, if any. *)
Definition answerOf (recs : gmap string ZoneRecord) (q : Question) : option RR :=
  head (Answer (fst (answerQuestion recs q (newMsg, false)))).

(** The data of the resource record is the data of the zone record. *)
Definition carries (rec : ZoneRecord) (rr : RR) : Prop :=
  match rr with
  | RR_A _ a => a = ParseIP_To4 (Data rec)
  | RR_CNAME _ target => target = Data rec
  | RR_TXT _ txt => txt = [Data rec]
  | RR_MX _ preference mx => preference = Pref rec /\ mx = Data rec
  end.

(** The type of the record serves the type of the question: the same type,
    or a CNAME record for a question of type A. *)
Definition serves (rec : ZoneRecord) (q : Question) : Prop :=
  (Qtype q = TypeA /\ (Type_ rec = "A" \/ Type_ rec = "CNAME"))
  \/ (Qtype q = TypeCNAME /\ Type_ rec = "CNAME")
  \/ (Qtype q = TypeTXT /\ Type_ rec = "TXT")
  \/ (Qtype q = TypeMX /\ Type_ rec = "MX").

(** The parts of a reply that the loop over the questions leaves alone. *)
Definition envelope (m : Msg) : Z * bool * Z * bool * bool * bool * list Question :=
  (Id m, Response m, Opcode m, Authoritative m, RecursionDesired m,
   CheckingDisabled m, Question_ m).

(** A line of as many bytes as the buffer of the scanner holds, and a world
    whose zone file has it as its second line. *)
Definition longLine : string := repeatByte (N.to_nat MaxScanTokenSize) "a"%char.

Definition longLineWorld : World :=
  mkWorld
    (fun _ => FileData (unlines ["example.local. 300 IN A 127.0.0.1"]
                        +:+ longLine +:+ LF) false)
    (fun _ => Some 10) (fun _ => true).

(** * Properties *)

(** ** Lists *)

Lemma existsb_false {A} (f : A -> bool) (l : list A) :
  existsb f l = false <-> forall x, In x l -> f x = false.
Proof.
  induction l as [|a l IH]; simpl.
  - split; [intros _ x []|done].
  - rewrite orb_false_iff, IH. split.
    + intros [Ha Hl] x [<-|Hx]; auto.
    + intros H. split; [apply H; by left|]. intros x Hx. apply H. by right.
Qed.

Lemma filter_nil_existsb {A} (f : A -> bool) (l : list A) :
  List.filter f l = [] <-> existsb f l = false.
Proof.
  induction l as [|a l IH]; simpl; [done|].
  destruct (f a); simpl; [split; done|apply IH].
Qed.

(** ** Strings and names *)

Lemma String_eqb_true (a b : string) : String_eqb a b = true <-> a = b.
Proof. unfold String_eqb. apply bool_decide_eq_true. Qed.

Lemma String_eqb_false (a b : string) : String_eqb a b = false <-> a <> b.
Proof. unfold String_eqb. apply bool_decide_eq_false. Qed.

Lemma String_eqb_refl (a : string) : String_eqb a a = true.
Proof. by apply String_eqb_true. Qed.

Lemma lowerByte_not_upper (c : ascii) : isUpperByte (lowerByte c) = false.
Proof. destruct c as [[] [] [] [] [] [] [] []]; reflexivity. Qed.

Lemma hasUpper_ToLower (s : string) : hasUpper (ToLower s) = false.
Proof.
  unfold ToLower. induction s as [|c s IH]; simpl; [done|].
  by rewrite lowerByte_not_upper, IH.
Qed.

Lemma hasUpper_app (s t : string) :
  hasUpper (s +:+ t) = hasUpper s || hasUpper t.
Proof.
  induction s as [|c s IH]; simpl; [done|].
  by rewrite IH, orb_assoc.
Qed.

Lemma hasUpper_Fqdn (s : string) : hasUpper (Fqdn s) = hasUpper s.
Proof.
  unfold Fqdn. destruct (IsFqdn s); [done|].
  rewrite hasUpper_app. simpl. by rewrite !orb_false_r.
Qed.

Lemma hasUpper_lookupName (q : Question) : hasUpper (lookupName q) = false.
Proof. unfold lookupName. by rewrite hasUpper_Fqdn, hasUpper_ToLower. Qed.

(** ** The map that the scan loop builds *)

Lemma parseLine_Stored_name text name rec :
  parseLine text = Stored name rec ->
  name = Fqdn (field (Fields (TrimSpace text)) 0).
Proof.
  unfold parseLine. intros H.
  repeat (case_match; simplify_eq/=; try done).
Qed.

Lemma storesAt_Stored text name rec :
  parseLine text = Stored name rec -> storesAt name text = Some rec.
Proof. intros H. unfold storesAt. rewrite H. by rewrite decide_True. Qed.

Lemma scanStep_lookup recs text k :
  scanStep recs text !! k =
  match storesAt k text with Some rec => Some rec | None => recs !! k end.
Proof.
  unfold scanStep, storesAt. destruct (parseLine text) as [|d|name rec]; try done.
  destruct (decide (name = k)) as [->|Hne].
  - by rewrite lookup_insert_eq.
  - by rewrite lookup_insert_ne.
Qed.

Lemma loadLines_lookup lines recs k :
  loadLines lines recs !! k =
  match lastStored k lines with Some rec => Some rec | None => recs !! k end.
Proof.
  revert recs. induction lines as [|text rest IH]; intros recs; simpl; [done|].
  unfold loadLines in *. simpl. rewrite IH.
  destruct (lastStored k rest); [done|]. apply scanStep_lookup.
Qed.

Lemma lastStored_app k l1 l2 :
  lastStored k (l1 ++ l2) =
  match lastStored k l2 with Some rec => Some rec | None => lastStored k l1 end.
Proof.
  induction l1 as [|t l1 IH]; simpl.
  - by destruct (lastStored k l2).
  - rewrite IH. by destruct (lastStored k l2).
Qed.

Lemma lastStored_skip k text before after :
  storesAt k text = None ->
  lastStored k (before ++ text :: after) = lastStored k (before ++ after).
Proof.
  intros Hs. rewrite !lastStored_app. simpl. rewrite Hs.
  by destruct (lastStored k after).
Qed.

Lemma lastStored_none k lines :
  (forall t, In t lines -> storesAt k t = None) -> lastStored k lines = None.
Proof.
  induction lines as [|t rest IH]; intros H; simpl; [done|].
  rewrite IH by (intros t' Ht'; apply H; by right).
  apply H. by left.
Qed.

Lemma loadZoneFile_records w path :
  fst (loadZoneFile w path) = loadLines (scannedLines w path) ∅.
Proof.
  unfold loadZoneFile, scannedLines. destruct (Open w path) as [|content rf]; [done|].
  by destruct (scanLines content).
Qed.

(** When [loadZoneFile] returns an error. *)
Lemma loadZoneFile_error w path :
  snd (loadZoneFile w path) =
  match Open w path with
  | NoFile => Some ErrOpen
  | FileData content readFails =>
      if snd (scanLines content) then Some ErrTooLong
      else if readFails then Some ErrRead
      else None
  end.
Proof.
  unfold loadZoneFile. destruct (Open w path) as [|content rf]; [done|].
  by destruct (scanLines content).
Qed.

(** ** The loop over the questions *)

Lemma otherQtype_true q :
  otherQtype q = true <->
  Qtype q <> TypeA /\ Qtype q <> TypeCNAME /\ Qtype q <> TypeTXT /\ Qtype q <> TypeMX.
Proof.
  unfold otherQtype. rewrite !andb_true_iff, !negb_true_iff, !Z.eqb_neq. tauto.
Qed.

Lemma initialReply_Answer r : Answer (initialReply r) = [].
Proof. reflexivity. Qed.

Lemma initialReply_Rcode r : Rcode (initialReply r) = RcodeSuccess.
Proof. reflexivity. Qed.

Lemma answerQuestion_ext recs1 recs2 q st :
  recs1 !! lookupName q = recs2 !! lookupName q ->
  answerQuestion recs1 q st = answerQuestion recs2 q st.
Proof. intros H. unfold answerQuestion. destruct st as [m a]. simpl. by rewrite H. Qed.

Lemma answerQuestions_ext recs1 recs2 qs st :
  (forall q, In q qs -> recs1 !! lookupName q = recs2 !! lookupName q) ->
  answerQuestions recs1 qs st = answerQuestions recs2 qs st.
Proof.
  revert st. induction qs as [|q qs IH]; intros st H; simpl; [done|].
  unfold answerQuestions in *. simpl.
  rewrite (answerQuestion_ext recs1 recs2) by (apply H; by left).
  apply IH. intros q' Hq'. apply H. by right.
Qed.

Section QuestionLoop.

Variable recs : gmap string ZoneRecord.

Lemma answerQuestion_answered q m a :
  snd (answerQuestion recs q (m, a)) = a || answersQuestion recs q.
Proof. split_answer; by destruct a. Qed.

Lemma answerQuestions_answered qs m a :
  snd (answerQuestions recs qs (m, a)) = a || existsb (answersQuestion recs) qs.
Proof.
  revert m a. induction qs as [|q qs IH]; intros m a; simpl.
  - by rewrite orb_false_r.
  - unfold answerQuestions in *. simpl.
    destruct (answerQuestion recs q (m, a)) as [m' a'] eqn:E.
    rewrite IH. pose proof (answerQuestion_answered q m a) as H.
    rewrite E in H. simpl in H. rewrite H. by rewrite orb_assoc.
Qed.

Lemma answerQuestion_unanswered q m a :
  answersQuestion recs q = false ->
  Answer (fst (answerQuestion recs q (m, a))) = Answer m.
Proof. split_answer. Qed.

Lemma answerQuestions_unanswered qs m a :
  existsb (answersQuestion recs) qs = false ->
  Answer (fst (answerQuestions recs qs (m, a))) = Answer m.
Proof.
  revert m a. induction qs as [|q qs IH]; intros m a; simpl; [done|].
  intros [Hq Hqs]%orb_false_elim. unfold answerQuestions in *. simpl.
  destruct (answerQuestion recs q (m, a)) as [m' a'] eqn:E.
  rewrite IH by done. pose proof (answerQuestion_unanswered q m a Hq) as H.
  by rewrite E in H.
Qed.

Lemma answerQuestion_Rcode q m a :
  Rcode (fst (answerQuestion recs q (m, a))) =
  if hitsNotImplemented recs q then RcodeNotImplemented else Rcode m.
Proof.
  unfold hitsNotImplemented, otherQtype, answerQuestion.
  destruct (recs !! lookupName q) as [rec|] eqn:E.
  - rewrite (bool_decide_eq_true_2 (is_Some (Some rec))) by eauto.
    repeat (case_match; simplify_eq/=; try done).
  - rewrite (bool_decide_eq_false_2 (is_Some None)) by (intros [? ?]; done).
    by rewrite andb_false_r.
Qed.

Lemma answerQuestions_Rcode qs m a :
  Rcode (fst (answerQuestions recs qs (m, a))) =
  if existsb (hitsNotImplemented recs) qs then RcodeNotImplemented else Rcode m.
Proof.
  revert m a. induction qs as [|q qs IH]; intros m a; simpl; [done|].
  unfold answerQuestions in *. simpl.
  destruct (answerQuestion recs q (m, a)) as [m' a'] eqn:E.
  rewrite IH. pose proof (answerQuestion_Rcode q m a) as H.
  rewrite E in H. simpl in H. rewrite H.
  destruct (hitsNotImplemented recs q), (existsb (hitsNotImplemented recs) qs); done.
Qed.

Lemma answerQuestion_length q m a :
  length (Answer (fst (answerQuestion recs q (m, a)))) =
  (length (Answer m) + (if answersQuestion recs q then 1 else 0))%nat.
Proof. split_answer; rewrite ?length_app; simpl; lia. Qed.

Lemma answerQuestions_length qs m a :
  length (Answer (fst (answerQuestions recs qs (m, a)))) =
  (length (Answer m) + length (List.filter (answersQuestion recs) qs))%nat.
Proof.
  revert m a. induction qs as [|q qs IH]; intros m a; simpl; [lia|].
  unfold answerQuestions in *. simpl.
  destruct (answerQuestion recs q (m, a)) as [m' a'] eqn:E.
  rewrite IH. pose proof (answerQuestion_length q m a) as H.
  rewrite E in H. simpl in H. rewrite H.
  destruct (answersQuestion recs q); simpl; lia.
Qed.

End QuestionLoop.

(** The handler in terms of the loop result. *)
Lemma handleDNSRequest_unfold g upstream r :
  handleDNSRequest g upstream r =
  let st := answerQuestions (records g) (Question_ r) (initialReply r, false) in
  if negb (snd st) && negb (String_eqb (FallbackDNS (config g)) EmptyString) then
    match upstream r (FallbackDNS (config g)) with
    | Some resp => [Exchange r (FallbackDNS (config g)); WriteMsg resp]
    | None =>
        [Exchange r (FallbackDNS (config g));
         WriteMsg (setRcode (fst st) RcodeServerFailure)]
    end
  else [WriteMsg (fst st)].
Proof.
  unfold handleDNSRequest, initialReply.
  by destruct (answerQuestions _ _ _) as [m a].
Qed.

(** ** The example scenarios *)

Example scenario_A_record :
  answersOf (handleDNSRequest (exampleGlobals EmptyString) (fun _ _ => None)
               (query "example.local." TypeA))
  = Some (RcodeSuccess,
          [RR_A (mkHdr "example.local." TypeA ClassINET 300)
                (Some [127; 0; 0; 1]%N)]).
Proof. vm_compute. reflexivity. Qed.

Example scenario_CNAME_not_followed :
  answersOf (handleDNSRequest (exampleGlobals EmptyString) (fun _ _ => None)
               (query "alias.local." TypeA))
  = Some (RcodeSuccess,
          [RR_CNAME (mkHdr "alias.local." TypeCNAME ClassINET 300) "example.local."]).
Proof. vm_compute. reflexivity. Qed.

Example scenario_MX_record :
  answersOf (handleDNSRequest (exampleGlobals EmptyString) (fun _ _ => None)
               (query "MAIL.example" TypeMX))
  = Some (RcodeSuccess,
          [RR_MX (mkHdr "MAIL.example" TypeMX ClassINET 300) 10 "mailserver.local."]).
Proof. vm_compute. reflexivity. Qed.

Example scenario_mixed_case_zone_name :
  answersOf (handleDNSRequest (exampleGlobals EmptyString) (fun _ _ => None)
               (query "mixed.case." TypeA))
  = Some (RcodeSuccess, [])
  /\ answersOf (handleDNSRequest (exampleGlobals EmptyString) (fun _ _ => None)
                  (query "Mixed.Case." TypeA))
     = Some (RcodeSuccess, []).
Proof. split; vm_compute; reflexivity. Qed.

Example scenario_bad_TTL_line :
  parseLine "bad.local. notanumber IN A 1.2.3.4" = Rejected InvalidTTL
  /\ fst (loadZoneFile exampleWorld "zones.txt") !! "bad.local." = None.
Proof. split; vm_compute; reflexivity. Qed.

Example scenario_upstream_reply_relayed :
  let nxdomain := mkMsg 7 true OpcodeQuery false true false 3
                    [mkQuestion "ghost.local." TypeA ClassINET] [] in
  handleDNSRequest (exampleGlobals "8.8.8.8:53") (fun _ _ => Some nxdomain)
    (query "ghost.local." TypeA)
  = [Exchange (query "ghost.local." TypeA) "8.8.8.8:53"; WriteMsg nxdomain].
Proof. vm_compute. reflexivity. Qed.

Example scenario_no_upstream_no_record :
  answersOf (handleDNSRequest (exampleGlobals EmptyString) (fun _ _ => None)
               (query "ghost.local." TypeA))
  = Some (RcodeSuccess, []).
Proof. vm_compute. reflexivity. Qed.

(** ** The claims *)

(** C1. A zone line that the parser accepts and whose name field has an
    upper-case letter is stored under a key that no question looks up: for
    every question the lookup key differs from the stored name, the lookup
    gives the same result as in the zone without that line, and so does the
    whole handler. *)
Theorem uppercase_zone_name_unreachable (text name : string) (rec : ZoneRecord) :
  parseLine text = Stored name rec ->
  hasUpper (field (Fields (TrimSpace text)) 0) = true ->
  forall q : Question,
    lookupName q <> name
    /\ (forall before after recs,
          loadLines (before ++ text :: after) recs !! lookupName q
          = loadLines (before ++ after) recs !! lookupName q)
    /\ (forall before after t cfg upstream r,
          handleDNSRequest
            (mkGlobals (loadLines (before ++ text :: after) ∅) t cfg) upstream r
          = handleDNSRequest
              (mkGlobals (loadLines (before ++ after) ∅) t cfg) upstream r).
Proof.
  intros Hp Hup.
  assert (Hkey : forall q', lookupName q' <> name).
  { intros q' Heq. apply parseLine_Stored_name in Hp.
    pose proof (hasUpper_lookupName q') as Hl.
    rewrite Heq, Hp, hasUpper_Fqdn, Hup in Hl. done. }
  assert (Hskip : forall q' before after recs,
             loadLines (before ++ text :: after) recs !! lookupName q'
             = loadLines (before ++ after) recs !! lookupName q').
  { intros q' before after recs. rewrite !loadLines_lookup.
    rewrite lastStored_skip; [done|].
    unfold storesAt. rewrite Hp. destruct (decide (name = lookupName q')) as [E|]; [|done].
    by destruct (Hkey q'). }
  intros q. split; [apply Hkey|]. split; [apply Hskip|].
  intros before after t cfg upstream r.
  rewrite !handleDNSRequest_unfold. simpl.
  rewrite (answerQuestions_ext _ (loadLines (before ++ after) ∅)); [done|].
  intros q' _. apply Hskip.
Qed.

Lemma uppercase_zone_name_unreachable_witness :
  parseLine "Mixed.Case. 300 IN A 10.0.0.1"
    = Stored "Mixed.Case." (mkRecord "A" 300 "10.0.0.1" 0)
  /\ lookupName (mkQuestion "Mixed.Case." TypeA ClassINET) <> "Mixed.Case.".
Proof.
  split; [vm_compute; reflexivity|].
  apply (uppercase_zone_name_unreachable "Mixed.Case. 300 IN A 10.0.0.1"
           "Mixed.Case." (mkRecord "A" 300 "10.0.0.1" 0));
    vm_compute; reflexivity.
Defined.

(** C2, as stated, fails: a zone source that is readable and yields no
    record (here the single line with a bad TTL) does not stop startup; the
    server listens with the empty map. *)
Lemma empty_zone_starts_serving :
  let cfg := mkConfig "1053" "zones.txt" "info" 5 EmptyString in
  let w := mkWorld
             (fun _ => FileData (unlines ["bad.local. notanumber IN A 1.2.3.4"]) false)
             (fun _ => Some 10) (fun _ => true) in
  initialLoadFails w cfg
  /\ main w cfg = Serving (mkGlobals ∅ 10 cfg)
  /\ ~ exists e, main w cfg = Fatal e.
Proof.
  intros cfg w.
  assert (Hmain : main w cfg = Serving (mkGlobals ∅ 10 cfg)) by (vm_compute; reflexivity).
  split; [right; vm_compute; reflexivity|]. split; [exact Hmain|].
  intros [e He]. rewrite Hmain in He. discriminate.
Qed.

(** C2, amended. When the initial [loadZoneFile] returns an error (the file
    cannot be opened, the read fails, or a line is too long for the
    scanner), [main] stops with that error and never serves.  When it
    returns no error, [main] goes on to listen with the map it got, and
    serves it if the listener starts, whether or not the map has records. *)
Theorem initial_load_error_is_fatal (w : World) (cfg : Config) :
  (forall recs e,
      loadZoneFile w (HostsFile cfg) = (recs, Some e) -> main w cfg = Fatal e)
  /\ (Open w (HostsFile cfg) = NoFile -> main w cfg = Fatal ErrOpen)
  /\ (forall content,
        Open w (HostsFile cfg) = FileData content true ->
        main w cfg = Fatal ErrRead \/ main w cfg = Fatal ErrTooLong)
  /\ (forall recs,
        loadZoneFile w (HostsFile cfg) = (recs, None) ->
        Listen w (ListenPort cfg) = true ->
        exists t, main w cfg = Serving (mkGlobals recs t cfg)).
Proof.
  split; [|split; [|split]].
  - intros recs e H. unfold main. by rewrite H.
  - intros H. unfold main, loadZoneFile. by rewrite H.
  - intros content H. unfold main.
    pose proof (loadZoneFile_error w (HostsFile cfg)) as He. rewrite H in He.
    destruct (loadZoneFile w (HostsFile cfg)) as [recs err]. simpl in He. subst err.
    destruct (snd (scanLines content)); auto.
  - intros recs H HL. unfold main. rewrite H, HL. eauto.
Qed.

Lemma initial_load_error_is_fatal_witness :
  let cfg := mkConfig "1053" "zones.txt" "info" 5 EmptyString in
  let w := mkWorld (fun _ => NoFile) (fun _ => None) (fun _ => true) in
  main w cfg = Fatal ErrOpen.
Proof.
  intros cfg w.
  destruct (initial_load_error_is_fatal w cfg) as (_ & Hopen & _ & _).
  apply Hopen. reflexivity.
Defined.

(** C3. A question of type A whose normalized name maps to a CNAME record
    is answered with that CNAME record (the stored target and TTL) and
    nothing else: the loop body appends exactly this one record, whatever
    the map holds for the target, and a request with this single question is
    answered with a reply whose answer section is that record alone. *)
Theorem A_query_on_CNAME_returns_alias (recs : gmap string ZoneRecord)
    (q : Question) (rec : ZoneRecord) :
  Qtype q = TypeA ->
  recs !! lookupName q = Some rec ->
  Type_ rec = "CNAME" ->
  let cname := RR_CNAME (mkHdr (Name q) TypeCNAME ClassINET (TTL rec)) (Data rec) in
  (forall m answered,
      answerQuestion recs q (m, answered) = (appendAnswer m cname, true))
  /\ (forall t cfg upstream r,
        Question_ r = [q] ->
        handleDNSRequest (mkGlobals recs t cfg) upstream r
        = [WriteMsg (appendAnswer (initialReply r) cname)]
        /\ Answer (appendAnswer (initialReply r) cname) = [cname]).
Proof.
  intros Hq Hrec Hty cname.
  assert (Hstep : forall m answered,
             answerQuestion recs q (m, answered) = (appendAnswer m cname, true)).
  { intros m answered. unfold answerQuestion. rewrite Hrec, Hq, Hty. reflexivity. }
  split; [exact Hstep|].
  intros t cfg upstream r Hr. split; [|reflexivity].
  rewrite handleDNSRequest_unfold. simpl. rewrite Hr.
  unfold answerQuestions. simpl. rewrite Hstep. reflexivity.
Qed.

Lemma A_query_on_CNAME_returns_alias_witness :
  answerQuestion
    {[ "alias.local." := mkRecord "CNAME" 300 "example.local." 0;
       "example.local." := mkRecord "A" 300 "127.0.0.1" 0 ]}
    (mkQuestion "alias.local." TypeA ClassINET) (newMsg, false)
  = (appendAnswer newMsg
       (RR_CNAME (mkHdr "alias.local." TypeCNAME ClassINET 300) "example.local."),
     true).
Proof.
  apply (A_query_on_CNAME_returns_alias
           {[ "alias.local." := mkRecord "CNAME" 300 "example.local." 0;
              "example.local." := mkRecord "A" 300 "127.0.0.1" 0 ]}
           (mkQuestion "alias.local." TypeA ClassINET)
           (mkRecord "CNAME" 300 "example.local." 0));
    reflexivity.
Defined.

(** C4. When a pass of the reload loop sees a strictly newer modification
    time and [loadZoneFile] returns an error, the pass leaves the globals as
    they were (the map [records] and [hostsFileModTime] included), and the
    loop goes on with the next pass. *)
Theorem failed_reload_keeps_snapshot (w : World) (g : Globals)
    (modTime : Instant) (recs' : gmap string ZoneRecord) (e : error) :
  Stat w (HostsFile (config g)) = Some modTime ->
  After modTime (hostsFileModTime g) = true ->
  loadZoneFile w (HostsFile (config g)) = (recs', Some e) ->
  reloadPass w g = g
  /\ records (reloadPass w g) = records g
  /\ hostsFileModTime (reloadPass w g) = hostsFileModTime g
  /\ forall ws, reloadZoneIfChanged (w :: ws) g = reloadZoneIfChanged ws g.
Proof.
  intros Hstat Hafter Hload.
  assert (Hpass : reloadPass w g = g).
  { unfold reloadPass. by rewrite Hstat, Hafter, Hload. }
  rewrite Hpass. repeat split.
  intros ws. unfold reloadZoneIfChanged. simpl. by rewrite Hpass.
Qed.

Lemma failed_reload_keeps_snapshot_witness :
  let g := mkGlobals {[ "example.local." := mkRecord "A" 300 "127.0.0.1" 0 ]} 10
             (mkConfig "1053" "zones.txt" "info" 5 "8.8.8.8:53") in
  let w := mkWorld (fun _ => NoFile) (fun _ => Some 20) (fun _ => true) in
  reloadPass w g = g.
Proof.
  intros g w.
  apply (failed_reload_keeps_snapshot w g 20 ∅ ErrOpen); reflexivity.
Defined.

(** C5. If no question of the request gets an answer, an upstream address
    is configured and the exchange with the upstream fails, the handler
    writes its own reply with rcode SERVFAIL and an empty answer section. *)
Theorem failed_fallback_gives_SERVFAIL (g : Globals)
    (upstream : Msg -> string -> option Msg) (r : Msg) :
  (forall q, In q (Question_ r) -> answersQuestion (records g) q = false) ->
  FallbackDNS (config g) <> EmptyString ->
  upstream r (FallbackDNS (config g)) = None ->
  exists m,
    handleDNSRequest g upstream r = [Exchange r (FallbackDNS (config g)); WriteMsg m]
    /\ reply (handleDNSRequest g upstream r) = Some m
    /\ Rcode m = RcodeServerFailure
    /\ Answer m = [].
Proof.
  intros Hun Hfb Hup. apply existsb_false in Hun.
  rewrite handleDNSRequest_unfold. simpl.
  rewrite answerQuestions_answered, Hun. simpl.
  apply String_eqb_false in Hfb. rewrite Hfb, Hup. simpl.
  eexists. split; [reflexivity|]. split; [reflexivity|]. split; [reflexivity|].
  simpl. by rewrite answerQuestions_unanswered.
Qed.

Lemma failed_fallback_gives_SERVFAIL_witness :
  let g := mkGlobals {[ "example.local." := mkRecord "A" 300 "127.0.0.1" 0 ]} 10
             (mkConfig "1053" "zones.txt" "info" 5 "8.8.8.8:53") in
  let r := mkMsg 7 false 0 false true false 0
             [mkQuestion "ghost.local." TypeA ClassINET] [] in
  exists m,
    handleDNSRequest g (fun _ _ => None) r = [Exchange r "8.8.8.8:53"; WriteMsg m]
    /\ reply (handleDNSRequest g (fun _ _ => None) r) = Some m
    /\ Rcode m = RcodeServerFailure
    /\ Answer m = [].
Proof.
  intros g r.
  apply (failed_fallback_gives_SERVFAIL g (fun _ _ => None) r).
  - intros q [<-|[]]. reflexivity.
  - discriminate.
  - reflexivity.
Defined.

(** C6. The exchange with the upstream is attempted exactly when an
    upstream address is configured and no question of the request got an
    answer, which is exactly when the address is configured and the answer
    section built by the loop is empty; one answered question is enough to
    rule the exchange out, whatever the other questions did. *)
Theorem fallback_iff_unanswered (g : Globals)
    (upstream : Msg -> string -> option Msg) (r : Msg) :
  (forwarded (handleDNSRequest g upstream r) = true <->
   FallbackDNS (config g) <> EmptyString
   /\ forall q, In q (Question_ r) -> answersQuestion (records g) q = false)
  /\ (forwarded (handleDNSRequest g upstream r) = true <->
      FallbackDNS (config g) <> EmptyString
      /\ Answer (fst (answerQuestions (records g) (Question_ r)
                        (initialReply r, false))) = [])
  /\ ((exists q, In q (Question_ r) /\ answersQuestion (records g) q = true) ->
      forwarded (handleDNSRequest g upstream r) = false).
Proof.
  assert (Hfw : forwarded (handleDNSRequest g upstream r) =
                negb (existsb (answersQuestion (records g)) (Question_ r))
                && negb (String_eqb (FallbackDNS (config g)) EmptyString)).
  { rewrite handleDNSRequest_unfold. simpl.
    rewrite answerQuestions_answered. simpl.
    destruct (negb _ && negb _); [|reflexivity].
    destruct (upstream r _); reflexivity. }
  assert (Hnil : Answer (fst (answerQuestions (records g) (Question_ r)
                                (initialReply r, false))) = []
                 <-> existsb (answersQuestion (records g)) (Question_ r) = false).
  { rewrite <- filter_nil_existsb, <- !length_zero_iff_nil.
    rewrite answerQuestions_length, initialReply_Answer. simpl. done. }
  rewrite Hfw, andb_true_iff, !negb_true_iff, String_eqb_false.
  split; [|split].
  - rewrite existsb_false. tauto.
  - rewrite Hnil. tauto.
  - intros (q & Hin & Hq).
    assert (existsb (answersQuestion (records g)) (Question_ r) = true) as ->.
    { apply existsb_exists. eauto. }
    reflexivity.
Qed.

Lemma fallback_iff_unanswered_witness :
  let g := mkGlobals {[ "example.local." := mkRecord "A" 300 "127.0.0.1" 0 ]} 10
             (mkConfig "1053" "zones.txt" "info" 5 "8.8.8.8:53") in
  let r := mkMsg 7 false 0 false true false 0
             [mkQuestion "ghost.local." TypeA ClassINET;
              mkQuestion "example.local." TypeA ClassINET] [] in
  forwarded (handleDNSRequest g (fun _ _ => None) r) = false.
Proof.
  intros g r.
  apply (fallback_iff_unanswered g (fun _ _ => None) r).
  exists (mkQuestion "example.local." TypeA ClassINET).
  split; [right; left; reflexivity|reflexivity].
Defined.

(** C7. For a question whose type is none of A, CNAME, TXT and MX, the loop
    body sets the rcode of the reply to NOTIMPLEMENTED when the map has a
    record (of whatever type) for the normalized name, and leaves the reply
    and the flag untouched when it has none; in neither case does the
    question count as answered.  Over a whole request the rcode that the
    loop leaves is NOTIMPLEMENTED exactly when some question took that
    branch, and without a configured upstream this is the rcode of the
    reply. *)
Theorem other_qtype_not_implemented :
  (forall (recs : gmap string ZoneRecord) (q : Question) (m : Msg) (answered : bool),
      Qtype q <> TypeA -> Qtype q <> TypeCNAME ->
      Qtype q <> TypeTXT -> Qtype q <> TypeMX ->
      (forall rec, recs !! lookupName q = Some rec ->
         answerQuestion recs q (m, answered)
         = (setRcode m RcodeNotImplemented, answered))
      /\ (recs !! lookupName q = None ->
          answerQuestion recs q (m, answered) = (m, answered))
      /\ answersQuestion recs q = false
      /\ (hitsNotImplemented recs q = true <-> is_Some (recs !! lookupName q)))
  /\ (forall (recs : gmap string ZoneRecord) (qs : list Question) (r : Msg),
        Rcode (fst (answerQuestions recs qs (initialReply r, false)))
          = RcodeNotImplemented
        <-> exists q, In q qs /\ otherQtype q = true
                      /\ is_Some (recs !! lookupName q))
  /\ (forall (g : Globals) (upstream : Msg -> string -> option Msg) (r : Msg),
        FallbackDNS (config g) = EmptyString ->
        exists m,
          handleDNSRequest g upstream r = [WriteMsg m]
          /\ (Rcode m = RcodeNotImplemented
              <-> exists q, In q (Question_ r) /\ otherQtype q = true
                            /\ is_Some (records g !! lookupName q))).
Proof.
  assert (Hloop : forall (recs : gmap string ZoneRecord) qs r,
             Rcode (fst (answerQuestions recs qs (initialReply r, false)))
               = RcodeNotImplemented
             <-> exists q, In q qs /\ otherQtype q = true
                           /\ is_Some (recs !! lookupName q)).
  { intros recs qs r. rewrite answerQuestions_Rcode, initialReply_Rcode.
    destruct (existsb (hitsNotImplemented recs) qs) eqn:E.
    - apply existsb_exists in E as (q & Hin & Hq).
      unfold hitsNotImplemented in Hq. apply andb_true_iff in Hq as [Ho Hs].
      apply bool_decide_eq_true in Hs. split; [eauto|done].
    - split; [done|]. intros (q & Hin & Ho & Hs).
      rewrite existsb_false in E. specialize (E q Hin).
      unfold hitsNotImplemented in E. rewrite Ho in E. simpl in E.
      apply bool_decide_eq_false in E. done. }
  split; [|split; [exact Hloop|]].
  - intros recs q m answered HA HC HT HM.
    apply Z.eqb_neq in HA, HC, HT, HM.
    assert (Ho : otherQtype q = true).
    { unfold otherQtype. by rewrite HA, HC, HT, HM. }
    repeat split.
    + intros rec Hrec. unfold answerQuestion. by rewrite Hrec, HA, HC, HT, HM.
    + intros Hnone. unfold answerQuestion. by rewrite Hnone.
    + unfold answersQuestion, answerQuestion.
      destruct (recs !! lookupName q); [|done]. by rewrite HA, HC, HT, HM.
    + unfold hitsNotImplemented. rewrite Ho. simpl. apply bool_decide_eq_true.
    + unfold hitsNotImplemented. rewrite Ho. simpl. apply bool_decide_eq_true.
  - intros g upstream r Hfb. rewrite handleDNSRequest_unfold. simpl.
    rewrite Hfb, String_eqb_refl, andb_false_r.
    eexists. split; [reflexivity|]. apply Hloop.
Qed.

Lemma other_qtype_not_implemented_witness :
  answerQuestion {[ "mail.example." := mkRecord "MX" 300 "mailserver.local." 10 ]}
    (mkQuestion "mail.example." TypeAAAA ClassINET) (newMsg, false)
  = (setRcode newMsg RcodeNotImplemented, false)
  /\ answerQuestion {[ "mail.example." := mkRecord "MX" 300 "mailserver.local." 10 ]}
       (mkQuestion "ghost.example." TypeAAAA ClassINET) (newMsg, false)
     = (newMsg, false).
Proof.
  split.
  - destruct (proj1 other_qtype_not_implemented
                {[ "mail.example." := mkRecord "MX" 300 "mailserver.local." 10 ]}
                (mkQuestion "mail.example." TypeAAAA ClassINET) newMsg false)
      as (Hfound & _); try discriminate.
    apply (Hfound (mkRecord "MX" 300 "mailserver.local." 10)). reflexivity.
  - destruct (proj1 other_qtype_not_implemented
                {[ "mail.example." := mkRecord "MX" 300 "mailserver.local." 10 ]}
                (mkQuestion "ghost.example." TypeAAAA ClassINET) newMsg false)
      as (_ & Habsent & _); try discriminate.
    apply Habsent. reflexivity.
Defined.

(** C8. In the map that [loadZoneFile] returns every name has at most one
    record, and the record of a name is the one of the last scanned line
    that assigns to it: when two accepted lines define the same name and no
    later line does, the record of the second line is the one in the map,
    whatever the types of the two records. *)
Theorem one_record_per_name_last_wins (w : World) (path : string) :
  let recs := fst (loadZoneFile w path) in
  let lines := scannedLines w path in
  NoDup (map fst (map_to_list recs))
  /\ (forall name r1 r2,
        (name, r1) ∈ map_to_list recs -> (name, r2) ∈ map_to_list recs -> r1 = r2)
  /\ (forall name, recs !! name = lastStored name lines)
  /\ (forall l1 l2 l3 t1 t2 name r1 r2,
        lines = l1 ++ t1 :: l2 ++ t2 :: l3 ->
        parseLine t1 = Stored name r1 ->
        parseLine t2 = Stored name r2 ->
        (forall t, In t l3 -> storesAt name t = None) ->
        recs !! name = Some r2).
Proof.
  intros recs lines.
  assert (Hlook : forall name, recs !! name = lastStored name lines).
  { intros name. unfold recs, lines. rewrite loadZoneFile_records, loadLines_lookup.
    by destruct (lastStored name _). }
  split; [apply NoDup_fst_map_to_list|]. split; [|split; [exact Hlook|]].
  - intros name r1 r2 H1%elem_of_map_to_list H2%elem_of_map_to_list. congruence.
  - intros l1 l2 l3 t1 t2 name r1 r2 Hl _ H2 H3.
    rewrite Hlook, Hl.
    rewrite lastStored_app. simpl. rewrite lastStored_app. simpl.
    rewrite (lastStored_none name l3 H3).
    by rewrite (storesAt_Stored t2 name r2 H2).
Qed.

Lemma one_record_per_name_last_wins_witness :
  let w := mkWorld
             (fun _ => FileData (unlines ["dup.local. 60 IN A 1.2.3.4";
                                          "dup.local. 90 IN TXT hello"]) false)
             (fun _ => Some 10) (fun _ => true) in
  fst (loadZoneFile w "zones.txt") !! "dup.local." = Some (mkRecord "TXT" 90 "hello" 0).
Proof.
  intros w.
  destruct (one_record_per_name_last_wins w "zones.txt") as (_ & _ & _ & Hlast).
  apply (Hlast [] [] [] "dup.local. 60 IN A 1.2.3.4" "dup.local. 90 IN TXT hello"
           "dup.local." (mkRecord "A" 60 "1.2.3.4" 0)).
  - vm_compute; reflexivity.
  - vm_compute; reflexivity.
  - vm_compute; reflexivity.
  - intros t [].
Defined.

(** C10. A line of type A is accepted whenever its data field parses as an
    IP literal, and the data is stored as written; IPv6 literals are among
    them.  When the stored data of an A record has no 4-byte form, a
    question of type A that finds the record is counted as answered with an
    A record whose address is nil. *)
Theorem non_IPv4_A_record_answered_with_nil_address :
  (forall text name ttl cls typ d rest t ip,
      (String_eqb (TrimSpace text) EmptyString
       || HasPrefix (TrimSpace text) ";" || HasPrefix (TrimSpace text) "#") = false ->
      Fields (TrimSpace text) = name :: ttl :: cls :: typ :: d :: rest ->
      ParseUint32 ttl = Some t ->
      ToUpper cls = "IN" ->
      ToUpper typ = "A" ->
      ParseIP d = Some ip ->
      parseLine text = Stored (Fqdn name) (mkRecord "A" (uint32 (Z.of_N t)) d 0))
  /\ (exists ip,
        parseLine "v6.local. 300 IN A 2001:db8::1"
          = Stored "v6.local." (mkRecord "A" 300 "2001:db8::1" 0)
        /\ ParseIP "2001:db8::1" = Some ip /\ To4 ip = None)
  /\ (forall (recs : gmap string ZoneRecord) name rec ip q,
        recs !! name = Some rec ->
        Type_ rec = "A" ->
        ParseIP (Data rec) = Some ip ->
        To4 ip = None ->
        Qtype q = TypeA ->
        lookupName q = name ->
        forall m answered,
          answerQuestion recs q (m, answered)
          = (appendAnswer m (RR_A (mkHdr (Name q) TypeA ClassINET (TTL rec)) None),
             true)).
Proof.
  split; [|split].
  - intros text name ttl cls typ d rest t ip Hign Hf Httl Hcls Htyp Hip.
    unfold parseLine. rewrite Hign, Hf. unfold field.
    cbn [nth length Nat.ltb Nat.leb].
    rewrite Httl, Hcls, Htyp, Hip. reflexivity.
  - eexists. split; [vm_compute; reflexivity|]. split; vm_compute; reflexivity.
  - intros recs name rec ip q Hrec Hty Hip H4 Hq <- m answered.
    unfold answerQuestion. rewrite Hrec, Hq, Hty. simpl.
    unfold ParseIP_To4. by rewrite Hip, H4.
Qed.

Lemma non_IPv4_A_record_answered_with_nil_address_witness :
  let recs := loadLines ["v6.local. 300 IN A 2001:db8::1"] ∅ in
  answerQuestion recs (mkQuestion "v6.local." TypeA ClassINET) (newMsg, false)
  = (appendAnswer newMsg (RR_A (mkHdr "v6.local." TypeA ClassINET 300) None), true).
Proof.
  intros recs.
  destruct non_IPv4_A_record_answered_with_nil_address as (_ & _ & Hans).
  apply (Hans recs "v6.local." (mkRecord "A" 300 "2001:db8::1" 0)
           [32; 1; 13; 184; 0; 0; 0; 0; 0; 0; 0; 0; 0; 0; 0; 1]%N
           (mkQuestion "v6.local." TypeA ClassINET));
    vm_compute; reflexivity.
Defined.

(** * Further properties of the program *)

(** ** Reversal and trimming *)

Lemma String_app_cons a s t : (String a s) +:+ t = String a (s +:+ t).
Proof. reflexivity. Qed.

Lemma String_app_nil_r s : s +:+ EmptyString = s.
Proof. induction s as [|a s IH]; [done|]. by rewrite String_app_cons, IH. Qed.

Lemma String_app_assoc s t u : (s +:+ t) +:+ u = s +:+ (t +:+ u).
Proof. induction s as [|a s IH]; [done|]. by rewrite !String_app_cons, IH. Qed.

Lemma rev_app_app s t u :
  String.rev_app (s +:+ t) u = String.rev_app t (String.rev_app s u).
Proof.
  revert u. induction s as [|a s IH]; intros u; [done|].
  rewrite String_app_cons. simpl. apply IH.
Qed.

Lemma rev_app_spec s u : String.rev_app s u = String.rev s +:+ u.
Proof.
  unfold String.rev. revert u. induction s as [|a s IH]; intros u; [done|].
  simpl. rewrite IH, (IH (String a EmptyString)), String_app_assoc. done.
Qed.

Lemma String_rev_app s t : String.rev (s +:+ t) = String.rev t +:+ String.rev s.
Proof. unfold String.rev at 1. rewrite rev_app_app, rev_app_spec. done. Qed.

Lemma String_rev_cons a s :
  String.rev (String a s) = String.rev s +:+ String a EmptyString.
Proof. unfold String.rev at 1. simpl. apply rev_app_spec. Qed.

Lemma String_rev_involutive s : String.rev (String.rev s) = s.
Proof.
  induction s as [|a s IH]; [done|].
  by rewrite String_rev_cons, String_rev_app, IH.
Qed.

Lemma endsWithDot_Fqdn s : endsWithDot (Fqdn s) = true.
Proof.
  unfold Fqdn, IsFqdn, endsWithDot.
  destruct (String.rev s) as [|c t] eqn:E.
  - rewrite String_rev_app, E. reflexivity.
  - destruct (Ascii.eqb c dot) eqn:Ec; simpl.
    + destruct (Nat.even _); [by rewrite E, Ec|].
      rewrite String_rev_app. reflexivity.
    + rewrite String_rev_app. reflexivity.
Qed.

Lemma allSpace_app s t : allSpace (s +:+ t) = allSpace s && allSpace t.
Proof.
  induction s as [|a s IH]; [done|].
  rewrite String_app_cons. simpl. by rewrite IH, andb_assoc.
Qed.

Lemma allSpace_rev s : allSpace (String.rev s) = allSpace s.
Proof.
  induction s as [|a s IH]; [done|].
  rewrite String_rev_cons, allSpace_app, IH. simpl.
  by rewrite andb_true_r, andb_comm.
Qed.

Lemma TrimLeftSpace_allSpace s : allSpace s = true -> TrimLeftSpace s = EmptyString.
Proof.
  induction s as [|a s IH]; [done|]. simpl.
  intros [Ha Hs]%andb_true_iff. rewrite Ha. by apply IH.
Qed.

Lemma TrimLeftSpace_nil s : TrimLeftSpace s = EmptyString -> allSpace s = true.
Proof.
  induction s as [|a s IH]; [done|]. simpl.
  destruct (isSpace a); [|done]. intros H. by rewrite IH.
Qed.

Lemma TrimLeftSpace_app_l a s :
  allSpace a = true -> TrimLeftSpace (a +:+ s) = TrimLeftSpace s.
Proof.
  induction a as [|c a IH]; [done|]. simpl.
  intros [Hc Ha]%andb_true_iff. rewrite ?String_app_cons. simpl.
  rewrite Hc. by apply IH.
Qed.

Lemma TrimLeftSpace_app_r s b :
  TrimLeftSpace s <> EmptyString ->
  TrimLeftSpace (s +:+ b) = TrimLeftSpace s +:+ b.
Proof.
  induction s as [|c s IH]; [done|]. rewrite String_app_cons. simpl.
  destruct (isSpace c); [apply IH|]. intros _. by rewrite String_app_cons.
Qed.

Lemma TrimSpace_app_l a s : allSpace a = true -> TrimSpace (a +:+ s) = TrimSpace s.
Proof. intros Ha. unfold TrimSpace. by rewrite TrimLeftSpace_app_l. Qed.

Lemma TrimSpace_app_r s b : allSpace b = true -> TrimSpace (s +:+ b) = TrimSpace s.
Proof.
  intros Hb. unfold TrimSpace.
  destruct (TrimLeftSpace s) as [|c u] eqn:E.
  - apply TrimLeftSpace_nil in E.
    rewrite (TrimLeftSpace_allSpace (s +:+ b)); [done|].
    by rewrite allSpace_app, E, Hb.
  - rewrite TrimLeftSpace_app_r by (rewrite E; done). rewrite E.
    rewrite String_rev_app, TrimLeftSpace_app_l; [done|]. by rewrite allSpace_rev.
Qed.

(** ** Numbers *)

Lemma ParseUint32_range s n : ParseUint32 s = Some n -> (n <= 4294967295)%N.
Proof.
  unfold ParseUint32. destruct (decimal s) as [v|]; [|done].
  destruct (v <=? 4294967295)%N eqn:E; [|done].
  intros [= <-]. by apply N.leb_le.
Qed.

Lemma uint32_ParseUint32 s n : ParseUint32 s = Some n -> uint32 (Z.of_N n) = Z.of_N n.
Proof.
  intros H%ParseUint32_range. unfold uint32. apply Z.mod_small. lia.
Qed.

Lemma uint16_range x : 0 <= uint16 x < 65536.
Proof. unfold uint16. apply Z.mod_pos_bound. lia. Qed.

(** ** The words of a line *)

Lemma noSpace_app s t : noSpace (s +:+ t) = noSpace s && noSpace t.
Proof.
  induction s as [|a s IH]; [done|].
  rewrite String_app_cons. simpl. by rewrite IH, andb_assoc.
Qed.

Lemma noSpace_rev s : noSpace (String.rev s) = noSpace s.
Proof.
  induction s as [|a s IH]; [done|].
  rewrite String_rev_cons, noSpace_app, IH. simpl.
  by rewrite andb_true_r, andb_comm.
Qed.

Lemma isEmpty_rev s : isEmpty (String.rev s) = isEmpty s.
Proof.
  destruct s as [|a s]; [done|]. rewrite String_rev_cons.
  by destruct (String.rev s).
Qed.

Lemma isWord_rev s : isWord (String.rev s) = isWord s.
Proof. unfold isWord. by rewrite isEmpty_rev, noSpace_rev. Qed.

Lemma words_go_isWord s cur :
  (forall c, cur = Some c -> isWord c = true) ->
  Forall (fun w => isWord w = true) (String.words_go cur s).
Proof.
  revert cur. induction s as [|a s IH]; intros cur Hcur; simpl.
  - destruct cur as [c|]; simpl; [|constructor].
    constructor; [|constructor]. rewrite isWord_rev. by apply Hcur.
  - destruct (Ascii.is_space a) eqn:Ea.
    + apply Forall_app. split; [|apply IH; done].
      destruct cur as [c|]; simpl; [|constructor].
      constructor; [|constructor]. rewrite isWord_rev. by apply Hcur.
    + apply IH. intros c [= <-]. destruct cur as [c0|]; simpl.
      * specialize (Hcur c0 eq_refl). unfold isWord in *. simpl.
        unfold isSpace. rewrite Ea. simpl. by apply andb_true_iff in Hcur as [_ ->].
      * unfold isWord. simpl. unfold isSpace. by rewrite Ea.
Qed.

Lemma Fields_isWord s : Forall (fun w => isWord w = true) (Fields s).
Proof. apply words_go_isWord. done. Qed.

Lemma words_go_word w s cur :
  isWord w = true ->
  String.words_go cur (w +:+ s)
  = String.words_go (Some (String.rev_app w (default EmptyString cur))) s.
Proof.
  revert cur. induction w as [|a w IH]; intros cur Hw; [done|].
  unfold isWord in Hw. simpl in Hw. apply andb_true_iff in Hw as [Ha Hw].
  rewrite String_app_cons. simpl. unfold isSpace in Ha.
  destruct (Ascii.is_space a); [done|].
  destruct w as [|b w].
  - by destruct cur.
  - rewrite IH by done. by destruct cur.
Qed.

Lemma Join_cons w ws sep :
  ws <> [] -> Join (w :: ws) sep = w +:+ sep +:+ Join ws sep.
Proof. unfold Join. by destruct ws. Qed.

Lemma words_go_space c s :
  String.words_go (Some c) (" " +:+ s) = String.rev c :: String.words_go None s.
Proof. reflexivity. Qed.

Lemma Fields_Join ws :
  Forall (fun w => isWord w = true) ws -> Fields (Join ws " ") = ws.
Proof.
  unfold Fields, String.words.
  induction 1 as [|w ws Hw Hws IH]; [done|].
  destruct ws as [|w' ws'].
  - unfold Join. simpl. rewrite <- (String_app_nil_r w) at 1.
    rewrite words_go_word by done. simpl.
    by rewrite rev_app_spec, String_app_nil_r, String_rev_involutive.
  - rewrite Join_cons by done. rewrite words_go_word by done.
    rewrite words_go_space, IH. simpl.
    by rewrite rev_app_spec, String_app_nil_r, String_rev_involutive.
Qed.

Lemma Join_not_empty ws :
  ws <> [] -> Forall (fun w => isWord w = true) ws -> isEmpty (Join ws " ") = false.
Proof.
  intros Hne Hws. destruct ws as [|w ws]; [done|].
  apply Forall_cons in Hws as [Hw _]. unfold isWord in Hw.
  destruct w as [|a w]; [done|]. unfold Join. by destruct ws.
Qed.

(** ** What the parser stores *)

Lemma parseLine_Stored_valid text name rec :
  parseLine text = Stored name rec ->
  validRecord rec = true /\ endsWithDot name = true.
Proof.
  intros H. split; [|rewrite (parseLine_Stored_name _ _ _ H); apply endsWithDot_Fqdn].
  unfold parseLine in H.
  destruct (_ || _ || _); [done|].
  destruct (length (Fields (TrimSpace text)) <? 5)%nat eqn:Hlen; [done|].
  apply Nat.ltb_ge in Hlen.
  destruct (ParseUint32 _) as [ttl|] eqn:Httl; [|done].
  pose proof (ParseUint32_range _ _ Httl) as Hr.
  assert (Httl' : (0 <=? uint32 (Z.of_N ttl)) && (uint32 (Z.of_N ttl) <? 4294967296) = true).
  { rewrite (uint32_ParseUint32 _ _ Httl).
    apply andb_true_iff. split; [apply Z.leb_le|apply Z.ltb_lt]; lia. }
  destruct (negb _); [done|].
  unfold validRecord.
  destruct (String_eqb (ToUpper _) "A").
  { destruct (ParseIP _) eqn:Hip; [|done]. simplify_eq. simpl.
    rewrite Httl'. simpl. by rewrite Hip. }
  destruct (String_eqb (ToUpper _) "CNAME").
  { destruct (negb _) eqn:Hd; [done|]. apply negb_false_iff in Hd. simplify_eq. simpl.
    rewrite Httl'. simpl. by rewrite Hd, endsWithDot_Fqdn. }
  destruct (String_eqb (ToUpper _) "TXT").
  { simplify_eq. simpl. rewrite Httl'. simpl.
    rewrite Join_not_empty; [done| |].
    - intros Hnil. apply (f_equal length) in Hnil. rewrite length_skipn in Hnil.
      simpl in Hnil. lia.
    - apply Forall_drop, Fields_isWord. }
  destruct (String_eqb (ToUpper _) "MX"); [|done].
  destruct (length _ <? 6)%nat; [done|].
  destruct (Atoi _) as [pref|]; [|done].
  destruct (negb _) eqn:Hd; [done|]. apply negb_false_iff in Hd. simplify_eq. simpl.
  rewrite Httl'. simpl. pose proof (uint16_range pref) as Hp.
  rewrite Hd, endsWithDot_Fqdn.
  destruct (Z.leb_spec 0 (uint16 pref)), (Z.ltb_spec (uint16 pref) 65536); try lia; done.
Qed.

Lemma storesAt_Some k text rec :
  storesAt k text = Some rec <-> parseLine text = Stored k rec.
Proof.
  unfold storesAt. destruct (parseLine text) as [|d|name r]; try (split; done).
  destruct (decide (name = k)) as [->|Hne]; split; intros H; simplify_eq; done.
Qed.

Lemma lastStored_Some k lines rec :
  lastStored k lines = Some rec ->
  exists text, In text lines /\ parseLine text = Stored k rec.
Proof.
  induction lines as [|t rest IH]; simpl; [done|].
  destruct (lastStored k rest) as [r|].
  - intros [= <-]. destruct IH as (text & Hin & Hp); [done|]. eauto.
  - intros H%storesAt_Some. eauto.
Qed.

Lemma lastStored_is_Some k lines :
  is_Some (lastStored k lines) <->
  exists text rec, In text lines /\ parseLine text = Stored k rec.
Proof.
  split.
  - intros [rec H]. apply lastStored_Some in H as (text & ? & ?). eauto.
  - intros (text & rec & Hin & Hp). induction lines as [|t rest IH]; [done|].
    simpl. destruct (lastStored k rest) as [r|] eqn:E; [eauto|].
    destruct Hin as [->|Hin].
    + apply storesAt_Some in Hp. rewrite Hp. eauto.
    + destruct (IH Hin) as [? ?]. done.
Qed.

Lemma loadZoneFile_lookup w path name :
  fst (loadZoneFile w path) !! name = lastStored name (scannedLines w path).
Proof.
  rewrite loadZoneFile_records, loadLines_lookup.
  by destruct (lastStored name _).
Qed.

Lemma scanStep_size recs text :
  (size (scanStep recs text) <= size recs + (if isStoredLine text then 1 else 0))%nat.
Proof.
  unfold scanStep, isStoredLine. destruct (parseLine text) as [|d|name rec]; try lia.
  destruct (recs !! name) as [r|] eqn:E.
  - rewrite map_size_insert_Some by eauto. lia.
  - rewrite map_size_insert_None by done. lia.
Qed.

Lemma loadLines_size lines recs :
  (size (loadLines lines recs)
   <= size recs + length (List.filter isStoredLine lines))%nat.
Proof.
  revert recs. induction lines as [|t rest IH]; intros recs; simpl; [lia|].
  unfold loadLines in *. simpl. etrans; [apply IH|].
  pose proof (scanStep_size recs t). destruct (isStoredLine t); simpl; lia.
Qed.

Lemma loadLines_cons t lines recs :
  loadLines (t :: lines) recs = loadLines lines (scanStep recs t).
Proof. reflexivity. Qed.

Lemma loadLines_filter lines recs :
  loadLines lines recs = loadLines (List.filter isStoredLine lines) recs.
Proof.
  revert recs. induction lines as [|t rest IH]; intros recs; [done|].
  rewrite loadLines_cons. simpl List.filter.
  destruct (isStoredLine t) eqn:E.
  - rewrite loadLines_cons. apply IH.
  - rewrite IH. f_equal. unfold scanStep. unfold isStoredLine in E.
    by destruct (parseLine t).
Qed.

(** X1. Every entry of the map that [loadZoneFile] returns was written by a
    scanned line and is well formed: the key ends in a dot; the type is A,
    CNAME, TXT or MX; the TTL fits 32 bits and the preference 16 bits; the
    data of an A record parses as an IP literal, the data of a CNAME or MX
    record is an accepted domain name ending in a dot, the data of a TXT
    record is not empty; the preference is zero unless the type is MX. *)
Theorem loaded_entries_are_valid (w : World) (path name : string) (rec : ZoneRecord) :
  fst (loadZoneFile w path) !! name = Some rec ->
  validRecord rec = true
  /\ endsWithDot name = true
  /\ exists text, In text (scannedLines w path) /\ parseLine text = Stored name rec.
Proof.
  rewrite loadZoneFile_lookup. intros (text & Hin & Hp)%lastStored_Some.
  destruct (parseLine_Stored_valid _ _ _ Hp) as [Hv Hd]. eauto.
Qed.

Lemma loaded_entries_are_valid_witness :
  validRecord (mkRecord "MX" 300 "mailserver.local." 10) = true
  /\ endsWithDot "mail.example." = true.
Proof.
  destruct (loaded_entries_are_valid exampleWorld "zones.txt" "mail.example."
              (mkRecord "MX" 300 "mailserver.local." 10)) as (Hv & Hd & _).
  - vm_compute. reflexivity.
  - split; assumption.
Defined.

(** X2. A name is a key of the map that [loadZoneFile] returns exactly when
    some scanned line is accepted for that name, and the map has no more
    entries than the file has accepted lines. *)
Theorem loaded_names_are_accepted_lines (w : World) (path : string) :
  (forall name,
      is_Some (fst (loadZoneFile w path) !! name) <->
      exists text rec,
        In text (scannedLines w path) /\ parseLine text = Stored name rec)
  /\ (size (fst (loadZoneFile w path))
      <= length (List.filter isStoredLine (scannedLines w path)))%nat.
Proof.
  split.
  - intros name. rewrite loadZoneFile_lookup. apply lastStored_is_Some.
  - rewrite loadZoneFile_records.
    pose proof (loadLines_size (scannedLines w path) ∅) as H.
    by rewrite map_size_empty in H.
Qed.

(** X3. Blank lines, comments and rejected lines have no effect on the map:
    the loop gives the same map as on the accepted lines alone, in their
    order. *)
Theorem rejected_lines_have_no_effect (w : World) (path : string) :
  (forall lines recs,
      loadLines lines recs = loadLines (List.filter isStoredLine lines) recs)
  /\ fst (loadZoneFile w path)
     = loadLines (List.filter isStoredLine (scannedLines w path)) ∅.
Proof.
  split; [apply loadLines_filter|].
  rewrite loadZoneFile_records. apply loadLines_filter.
Qed.

(** The shape of an accepted line. *)
Lemma parseLine_Stored_inv text name rec :
  parseLine text = Stored name rec ->
  let fields := Fields (TrimSpace text) in
  (5 <= length fields)%nat
  /\ name = Fqdn (field fields 0)
  /\ ToUpper (field fields 2) = "IN"
  /\ exists ttl,
       ParseUint32 (field fields 1) = Some ttl
       /\ ((ToUpper (field fields 3) = "A"
            /\ is_Some (ParseIP (field fields 4))
            /\ rec = mkRecord "A" (Z.of_N ttl) (field fields 4) 0)
           \/ (ToUpper (field fields 3) = "CNAME"
               /\ IsDomainName (Fqdn (field fields 4)) = true
               /\ rec = mkRecord "CNAME" (Z.of_N ttl) (Fqdn (field fields 4)) 0)
           \/ (ToUpper (field fields 3) = "TXT"
               /\ rec = mkRecord "TXT" (Z.of_N ttl) (Join (skipn 4 fields) " ") 0)
           \/ (ToUpper (field fields 3) = "MX"
               /\ (6 <= length fields)%nat
               /\ IsDomainName (Fqdn (field fields 5)) = true
               /\ exists pref,
                    Atoi (field fields 4) = Some pref
                    /\ rec = mkRecord "MX" (Z.of_N ttl) (Fqdn (field fields 5))
                               (pref mod 65536))).
Proof.
  intros H fields. subst fields. unfold parseLine in H.
  destruct (_ || _ || _); [done|].
  destruct (length _ <? 5)%nat eqn:Hlen; [done|]. apply Nat.ltb_ge in Hlen.
  destruct (ParseUint32 _) as [ttl|] eqn:Httl; [|done].
  pose proof (uint32_ParseUint32 _ _ Httl) as Hu. rewrite Hu in H.
  destruct (String_eqb (ToUpper _) "IN") eqn:Hin; [|done].
  apply String_eqb_true in Hin. simpl in H.
  split; [done|].
  destruct (String_eqb (ToUpper _) "A") eqn:HA.
  { apply String_eqb_true in HA. destruct (ParseIP _) eqn:Hip; [|done].
    simplify_eq. split; [done|]. split; [done|]. exists ttl. split; [done|].
    left. split; [done|]. split; [eauto|done]. }
  destruct (String_eqb (ToUpper _) "CNAME") eqn:HC.
  { apply String_eqb_true in HC. destruct (negb _) eqn:Hd; [done|].
    apply negb_false_iff in Hd. simplify_eq.
    split; [done|]. split; [done|]. exists ttl. split; [done|].
    right. left. done. }
  destruct (String_eqb (ToUpper _) "TXT") eqn:HT.
  { apply String_eqb_true in HT. simplify_eq.
    split; [done|]. split; [done|]. exists ttl. split; [done|].
    right. right. left. done. }
  destruct (String_eqb (ToUpper _) "MX") eqn:HM; [|done].
  apply String_eqb_true in HM.
  destruct (length _ <? 6)%nat eqn:Hlen6; [done|]. apply Nat.ltb_ge in Hlen6.
  destruct (Atoi _) as [pref|] eqn:Hpref; [|done].
  destruct (negb _) eqn:Hd; [done|]. apply negb_false_iff in Hd.
  simplify_eq. split; [done|]. split; [done|]. exists ttl. split; [done|].
  right. right. right. split; [done|]. split; [done|]. split; [done|].
  exists pref. done.
Qed.

(** X4. White space before and after a line, a trailing carriage return
    included, does not change what the loop body does with the line. *)
Theorem line_padding_is_irrelevant (a text b : string) :
  allSpace a = true ->
  allSpace b = true ->
  parseLine (a +:+ text +:+ b) = parseLine text.
Proof.
  intros Ha Hb. unfold parseLine.
  by rewrite (TrimSpace_app_l a), (TrimSpace_app_r text b).
Qed.

Lemma line_padding_is_irrelevant_witness :
  parseLine ("  " +:+ "example.local. 300 IN A 127.0.0.1" +:+ CR)
  = parseLine "example.local. 300 IN A 127.0.0.1".
Proof.
  apply (line_padding_is_irrelevant "  " "example.local. 300 IN A 127.0.0.1" CR);
    reflexivity.
Defined.

(** X5. The TTL of a stored record is the decimal value of the TTL field
    without wrap-around, while the preference of an MX record is the value
    of its field modulo 65536: a preference outside 0..65535, negative ones
    included, is not rejected, and the stored preference is the written one
    only for a value in that range. *)
Theorem MX_preference_wraps (text name : string) (rec : ZoneRecord) (pref : Z) :
  parseLine text = Stored name rec ->
  Type_ rec = "MX" ->
  Atoi (field (Fields (TrimSpace text)) 4) = Some pref ->
  ParseUint32 (field (Fields (TrimSpace text)) 1) = Some (Z.to_N (TTL rec))
  /\ Pref rec = pref mod 65536
  /\ (Pref rec = pref <-> 0 <= pref < 65536).
Proof.
  intros Hp Hty Hpref.
  destruct (parseLine_Stored_inv _ _ _ Hp) as (_ & _ & _ & ttl & Httl & Hcase).
  destruct Hcase as [(_ & _ & ->)|[(_ & _ & ->)|[(_ & ->)|(_ & _ & _ & p & Hp' & ->)]]];
    try discriminate.
  rewrite Hpref in Hp'. simplify_eq. simpl. rewrite N2Z.id.
  split; [done|]. split; [done|]. split.
  - intros H. rewrite <- H. apply Z.mod_pos_bound. lia.
  - intros H. by apply Z.mod_small.
Qed.

Lemma MX_preference_wraps_witness :
  parseLine "mail.example. 300 IN MX 65546 mailserver.local."
  = Stored "mail.example." (mkRecord "MX" 300 "mailserver.local." 10)
  /\ Pref (mkRecord "MX" 300 "mailserver.local." 10) = 65546 mod 65536.
Proof.
  split; [vm_compute; reflexivity|].
  destruct (MX_preference_wraps "mail.example. 300 IN MX 65546 mailserver.local."
              "mail.example." (mkRecord "MX" 300 "mailserver.local." 10) 65546)
    as (_ & Hw & _); [vm_compute; reflexivity..|exact Hw].
Defined.

(** X6. The data of a stored TXT record is the fields from the fifth on
    joined by single spaces: it is not empty, and splitting it at white
    space gives back exactly those fields, so that runs of white space in
    the source are not kept. *)
Theorem TXT_data_is_the_joined_fields (text name : string) (rec : ZoneRecord) :
  parseLine text = Stored name rec ->
  Type_ rec = "TXT" ->
  Data rec = Join (skipn 4 (Fields (TrimSpace text))) " "
  /\ Fields (Data rec) = skipn 4 (Fields (TrimSpace text))
  /\ Data rec <> EmptyString.
Proof.
  intros Hp Hty.
  destruct (parseLine_Stored_valid _ _ _ Hp) as [Hv _].
  destruct (parseLine_Stored_inv _ _ _ Hp) as (_ & _ & _ & ttl & Httl & Hcase).
  destruct Hcase as [(_ & _ & ->)|[(_ & _ & ->)|[(_ & ->)|(_ & _ & _ & p & _ & ->)]]];
    try discriminate.
  simpl. split; [done|]. split.
  - apply Fields_Join, Forall_drop, Fields_isWord.
  - intros He. unfold validRecord in Hv. simpl in Hv. rewrite He in Hv.
    simpl in Hv. by rewrite !andb_false_r in Hv.
Qed.

Lemma TXT_data_is_the_joined_fields_witness :
  Fields (Data (mkRecord "TXT" 300 "This is a test" 0))
  = skipn 4 (Fields (TrimSpace "text.example. 300 IN TXT   This  is a   test")).
Proof.
  destruct (TXT_data_is_the_joined_fields
              "text.example. 300 IN TXT   This  is a   test" "text.example."
              (mkRecord "TXT" 300 "This is a test" 0)) as (_ & Hf & _);
    [vm_compute; reflexivity..|exact Hf].
Defined.

(** ** Names that questions reach *)




(** ** The lines of a file *)

Lemma noLF_cons c l :
  noLF (String c l) = true -> Ascii.eqb c (ascii_of_N 10) = false /\ noLF l = true.
Proof.
  unfold noLF. cbn [containsByte]. intros H%negb_true_iff.
  apply orb_false_iff in H as [Hc Hl]. split; [exact Hc|].
  apply negb_true_iff. exact Hl.
Qed.

Lemma scanLoop_cons cur n c s :
  Ascii.eqb c (ascii_of_N 10) = false ->
  scanLoop cur n (String c s) = scanLoop (String c cur) (n + 1)%N s.
Proof. intros H. cbn [scanLoop]. by rewrite H. Qed.

Lemma scanLoop_line l cur n s :
  noLF l = true ->
  scanLoop cur n (l +:+ s)
  = scanLoop (String.rev_app l cur) (n + N.of_nat (String.length l))%N s.
Proof.
  revert cur n. induction l as [|c l IH]; intros cur n Hl.
  - simpl. by rewrite N.add_0_r.
  - apply noLF_cons in Hl as [Hc Hl].
    rewrite String_app_cons, scanLoop_cons, IH by done.
    cbn [String.rev_app String.length]. f_equal. lia.
Qed.

Lemma scanLoop_full cur n s :
  (MaxScanTokenSize <= n)%N -> scanLoop cur n s = ([], true).
Proof.
  revert cur n. induction s as [|c s IH]; intros cur n Hn; simpl.
  - destruct (N.eqb_spec n 0) as [->|_]; [unfold MaxScanTokenSize in Hn; lia|].
    by rewrite (proj2 (N.leb_le _ _) Hn).
  - destruct (Ascii.eqb c _).
    + by rewrite (proj2 (N.leb_le _ _) Hn).
    + apply IH. lia.
Qed.

Lemma scanLoop_unlines_cons l rest :
  scannableLine l ->
  scanLines (l +:+ LF +:+ rest)
  = (dropCR l :: fst (scanLines rest), snd (scanLines rest)).
Proof.
  intros [Hl Hlen]. unfold scanLines. rewrite scanLoop_line by done.
  unfold LF. rewrite String_app_cons. simpl scanLoop.
  rewrite N.add_0_l. rewrite (proj2 (N.leb_gt _ _) Hlen).
  change (EmptyString +:+ rest) with rest.
  destruct (scanLoop EmptyString 0 rest) as [toks long]. simpl.
  by rewrite rev_app_spec, String_app_nil_r, String_rev_involutive.
Qed.

Lemma scanLines_unlines ls :
  Forall scannableLine ls -> scanLines (unlines ls) = (map dropCR ls, false).
Proof.
  induction 1 as [|l ls Hl Hls IH]; [done|]. simpl unlines.
  rewrite scanLoop_unlines_cons by done. by rewrite IH.
Qed.

Lemma parseLine_dropCR t : parseLine (dropCR t) = parseLine t.
Proof.
  unfold dropCR. destruct (String.rev t) as [|c u] eqn:E; [done|].
  destruct (Ascii.eqb_spec c (ascii_of_N 13)) as [->|_]; [|done].
  rewrite <- (String_rev_involutive t), E, String_rev_cons.
  unfold parseLine. by rewrite TrimSpace_app_r.
Qed.

Lemma loadLines_ext (f : string -> string) lines recs :
  (forall t, parseLine (f t) = parseLine t) ->
  loadLines (map f lines) recs = loadLines lines recs.
Proof.
  intros Hf. revert recs. induction lines as [|t rest IH]; intros recs; [done|].
  simpl map. rewrite !loadLines_cons, IH. unfold scanStep. by rewrite Hf.
Qed.

Lemma scannableLine_CR l :
  noLF l = true -> (N.of_nat (String.length l) < MaxScanTokenSize - 1)%N ->
  scannableLine (l +:+ CR).
Proof.
  intros Hl Hlen. split.
  - clear Hlen. induction l as [|c l IH]; [done|].
    apply noLF_cons in Hl as [Hc Hl]. rewrite String_app_cons.
    unfold noLF in *. cbn [containsByte]. rewrite Hc. by apply IH.
  - assert (String.length (l +:+ CR) = S (String.length l)) as ->.
    { clear. induction l as [|c l IH]; [done|]. rewrite String_app_cons. simpl.
      by rewrite IH. }
    unfold MaxScanTokenSize in *. lia.
Qed.

(** X8. A zone file made of lines that have no line feed and are shorter
    than the buffer of the scanner, each ended by a line feed or by a
    carriage return and a line feed, loads without error, and its map is
    the one that the loop body builds from those lines in order. *)
Theorem zone_file_of_lines (w : World) (path : string) (ls : list string) :
  Forall (fun l => noLF l = true
                   /\ (N.of_nat (String.length l) < MaxScanTokenSize - 1)%N) ls ->
  Open w path = FileData (unlines ls) false
  \/ Open w path = FileData (unlines (map (fun l => l +:+ CR) ls)) false ->
  loadZoneFile w path = (loadLines ls ∅, None).
Proof.
  intros Hls Hopen. unfold loadZoneFile.
  destruct Hopen as [-> | ->].
  - rewrite scanLines_unlines.
    + by rewrite (loadLines_ext dropCR) by apply parseLine_dropCR.
    + eapply Forall_impl; [exact Hls|]. intros l [Hl Hlen]. split; [done|].
      unfold MaxScanTokenSize in *. lia.
  - rewrite scanLines_unlines.
    + rewrite (loadLines_ext dropCR) by apply parseLine_dropCR.
      rewrite (loadLines_ext (fun l => l +:+ CR)); [done|].
      intros t. unfold parseLine. by rewrite TrimSpace_app_r.
    + apply Forall_map. eapply Forall_impl; [exact Hls|].
      intros l [Hl Hlen]. by apply scannableLine_CR.
Qed.

Lemma zone_file_of_lines_witness :
  let ls := ["example.local. 300 IN A 127.0.0.1"; "; a comment";
             "alias.local. 300 IN CNAME example.local."] in
  let w := mkWorld (fun _ => FileData (unlines (map (fun l => l +:+ CR) ls)) false)
             (fun _ => None) (fun _ => true) in
  loadZoneFile w "zones.txt" = (loadLines ls ∅, None).
Proof.
  intros ls w. apply (zone_file_of_lines w "zones.txt" ls).
  - repeat constructor.
  - right. reflexivity.
Defined.

(** X9. A line of 65536 bytes or more is a load error: the scanner stops at
    it, [loadZoneFile] returns [ErrTooLong] together with the map of the
    lines before it, startup is fatal, and a reload pass that meets such a
    file changes nothing. *)
Theorem over_long_line_is_a_load_error (w : World) (path : string)
    (before : list string) (l rest : string) (readFails : bool) :
  Forall scannableLine before ->
  noLF l = true ->
  (MaxScanTokenSize <= N.of_nat (String.length l))%N ->
  Open w path = FileData (unlines before +:+ l +:+ rest) readFails ->
  loadZoneFile w path = (loadLines before ∅, Some ErrTooLong)
  /\ (forall cfg, HostsFile cfg = path -> main w cfg = Fatal ErrTooLong)
  /\ (forall g, HostsFile (config g) = path -> reloadPass w g = g).
Proof.
  intros Hb Hl Hlen Hopen.
  assert (Hscan : scanLines (unlines before +:+ l +:+ rest)
                  = (map dropCR before, true)).
  { clear Hopen. induction Hb as [|b bs Hb1 Hbs IH].
    - change (unlines [] +:+ l +:+ rest) with (l +:+ rest).
      unfold scanLines. rewrite scanLoop_line by done.
      apply scanLoop_full. lia.
    - simpl unlines. rewrite !String_app_assoc.
      rewrite scanLoop_unlines_cons by done. by rewrite IH. }
  assert (Hload : loadZoneFile w path = (loadLines before ∅, Some ErrTooLong)).
  { unfold loadZoneFile. rewrite Hopen, Hscan.
    by rewrite (loadLines_ext dropCR) by apply parseLine_dropCR. }
  split; [exact Hload|]. split.
  - intros cfg <-. unfold main. by rewrite Hload.
  - intros g Hg. unfold reloadPass. rewrite Hg, Hload.
    destruct (Stat w path) as [t|]; [|done]. by destruct (After _ _).
Qed.

Lemma over_long_line_is_a_load_error_witness :
  main longLineWorld (mkConfig "1053" "zones.txt" "info" 5 EmptyString)
  = Fatal ErrTooLong.
Proof.
  destruct (over_long_line_is_a_load_error longLineWorld "zones.txt"
              ["example.local. 300 IN A 127.0.0.1"] longLine LF false)
    as (_ & Hmain & _).
  - repeat constructor.
  - vm_compute. reflexivity.
  - vm_compute. discriminate.
  - reflexivity.
  - apply Hmain. reflexivity.
Defined.

(** ** The answers of the handler *)

Lemma answerQuestion_appends recs q m a :
  fst (answerQuestion recs q (m, a)) =
  match answerOf recs q with
  | Some rr => appendAnswer m rr
  | None =>
      if hitsNotImplemented recs q then setRcode m RcodeNotImplemented else m
  end.
Proof.
  unfold answerOf, hitsNotImplemented, otherQtype, answerQuestion.
  destruct (recs !! lookupName q) as [rec|].
  - rewrite (bool_decide_eq_true_2 (is_Some (Some rec))) by eauto.
    repeat (case_match; simplify_eq/=; try done).
  - rewrite (bool_decide_eq_false_2 (is_Some None)) by (intros [? ?]; done).
    by rewrite andb_false_r.
Qed.

Lemma answersQuestion_answerOf recs q :
  answersQuestion recs q = true <-> is_Some (answerOf recs q).
Proof.
  unfold answersQuestion, answerOf, answerQuestion.
  repeat (case_match; simplify_eq/=; try done);
    split; (try done); (try by eauto); intros [? ?]; done.
Qed.

Lemma answerQuestion_Answer recs q m a :
  Answer (fst (answerQuestion recs q (m, a)))
  = Answer m ++ option_list (answerOf recs q).
Proof.
  rewrite answerQuestion_appends. destruct (answerOf recs q); simpl; [done|].
  destruct (hitsNotImplemented recs q); simpl; by rewrite app_nil_r.
Qed.

Lemma answerQuestions_Answer recs qs m a :
  Answer (fst (answerQuestions recs qs (m, a)))
  = Answer m ++ omap (answerOf recs) qs.
Proof.
  revert m a. induction qs as [|q qs IH]; intros m a; simpl.
  - by rewrite app_nil_r.
  - unfold answerQuestions in *. simpl.
    destruct (answerQuestion recs q (m, a)) as [m' a'] eqn:E.
    rewrite IH. pose proof (answerQuestion_Answer recs q m a) as H.
    rewrite E in H. simpl in H. rewrite H, <- app_assoc.
    by destruct (answerOf recs q).
Qed.

Lemma answerQuestion_envelope recs q m a :
  envelope (fst (answerQuestion recs q (m, a))) = envelope m.
Proof.
  rewrite answerQuestion_appends. destruct (answerOf recs q); [done|].
  by destruct (hitsNotImplemented recs q).
Qed.

Lemma answerQuestions_envelope recs qs m a :
  envelope (fst (answerQuestions recs qs (m, a))) = envelope m.
Proof.
  revert m a. induction qs as [|q qs IH]; intros m a; [done|].
  unfold answerQuestions in *. simpl.
  destruct (answerQuestion recs q (m, a)) as [m' a'] eqn:E.
  rewrite IH. pose proof (answerQuestion_envelope recs q m a) as H.
  by rewrite E in H.
Qed.

(** X10. The loop body answers a question exactly when the map has a record
    for the normalized name whose type serves the type of the question (the
    same type, or a CNAME record for a question of type A).  The record it
    appends then has the name of the question as sent, class INET, the TTL
    and the data of the zone record, and the type of the zone record. *)
Theorem answer_comes_from_the_map (recs : gmap string ZoneRecord) (q : Question) :
  (is_Some (answerOf recs q) <->
   exists rec, recs !! lookupName q = Some rec /\ serves rec q)
  /\ (answersQuestion recs q = true <-> is_Some (answerOf recs q))
  /\ (forall rr,
        answerOf recs q = Some rr ->
        exists rec,
          recs !! lookupName q = Some rec
          /\ serves rec q
          /\ headerOf rr = mkHdr (Name q) (typeCodeOf rr) ClassINET (TTL rec)
          /\ typeNameOf rr = Type_ rec
          /\ carries rec rr).
Proof.
  assert (Hsound : forall rr,
             answerOf recs q = Some rr ->
             exists rec,
               recs !! lookupName q = Some rec
               /\ serves rec q
               /\ headerOf rr = mkHdr (Name q) (typeCodeOf rr) ClassINET (TTL rec)
               /\ typeNameOf rr = Type_ rec
               /\ carries rec rr).
  { intros rr. unfold answerOf, answerQuestion, serves.
    destruct (recs !! lookupName q) as [rec|]; [|done].
    destruct (Z.eqb_spec (Qtype q) TypeA) as [HA|HA].
    { destruct (String_eqb (Type_ rec) "A") eqn:E1.
      - apply String_eqb_true in E1. intros [= <-]. exists rec. simpl. eauto 10.
      - destruct (String_eqb (Type_ rec) "CNAME") eqn:E2; [|done].
        apply String_eqb_true in E2. intros [= <-]. exists rec. simpl. eauto 10. }
    destruct (Z.eqb_spec (Qtype q) TypeCNAME) as [HC|HC].
    { destruct (String_eqb (Type_ rec) "CNAME") eqn:E2; [|done].
      apply String_eqb_true in E2. intros [= <-]. exists rec. simpl. eauto 10. }
    destruct (Z.eqb_spec (Qtype q) TypeTXT) as [HT|HT].
    { destruct (String_eqb (Type_ rec) "TXT") eqn:E2; [|done].
      apply String_eqb_true in E2. intros [= <-]. exists rec. simpl. eauto 10. }
    destruct (Z.eqb_spec (Qtype q) TypeMX) as [HM|HM]; [|done].
    destruct (String_eqb (Type_ rec) "MX") eqn:E2; [|done].
    apply String_eqb_true in E2. intros [= <-]. exists rec. simpl. eauto 10. }
  split; [|split; [apply answersQuestion_answerOf|exact Hsound]]. split.
  - intros [rr Hrr]. destruct (Hsound rr Hrr) as (rec & ? & ? & _). eauto.
  - intros (rec & Hrec & Hs). unfold answerOf, answerQuestion. rewrite Hrec.
    destruct Hs as [[-> [Hty|Hty]]|[[HC Hty]|[[HT Hty]|[HM Hty]]]].
    + rewrite Hty. simpl. eauto.
    + rewrite Hty. simpl. eauto.
    + rewrite HC, Hty. simpl. eauto.
    + rewrite HT, Hty. simpl. eauto.
    + rewrite HM, Hty. simpl. eauto.
Qed.

Lemma answer_comes_from_the_map_witness :
  exists rec,
    fst (loadZoneFile exampleWorld "zones.txt")
      !! lookupName (mkQuestion "Mail.Example" TypeMX ClassINET) = Some rec
    /\ carries rec (RR_MX (mkHdr "Mail.Example" TypeMX ClassINET 300) 10
                      "mailserver.local.").
Proof.
  destruct (answer_comes_from_the_map (fst (loadZoneFile exampleWorld "zones.txt"))
              (mkQuestion "Mail.Example" TypeMX ClassINET)) as (_ & _ & Hs).
  destruct (Hs (RR_MX (mkHdr "Mail.Example" TypeMX ClassINET 300) 10
                  "mailserver.local.")) as (rec & Hrec & _ & _ & _ & Hc).
  - vm_compute. reflexivity.
  - exists rec. split; assumption.
Defined.

(** X11. The questions of a request are resolved independently and in
    order: the answer section that the loop builds is the answers of the
    single questions, one at most for each, in the order of the questions;
    it has as many records as there are answered questions. *)
Theorem answers_accumulate_in_order (recs : gmap string ZoneRecord)
    (qs : list Question) (r : Msg) :
  Answer (fst (answerQuestions recs qs (initialReply r, false)))
  = omap (answerOf recs) qs
  /\ length (Answer (fst (answerQuestions recs qs (initialReply r, false))))
     = length (List.filter (answersQuestion recs) qs)
  /\ (length (Answer (fst (answerQuestions recs qs (initialReply r, false))))
      <= length qs)%nat.
Proof.
  assert (Hlen : length (Answer (fst (answerQuestions recs qs (initialReply r, false))))
                 = length (List.filter (answersQuestion recs) qs)).
  { by rewrite answerQuestions_length, initialReply_Answer. }
  split; [by rewrite answerQuestions_Answer, initialReply_Answer|].
  split; [exact Hlen|]. rewrite Hlen. apply List.filter_length_le.
Qed.

(** ** The reply of the handler *)

(** X12. The handler writes exactly one message for every request.  It
    exchanges at most one message with the upstream, before it writes, and
    what it sends is the request as received, to the configured address. *)
Theorem handler_replies_once (g : Globals)
    (upstream : Msg -> string -> option Msg) (r : Msg) :
  exists m,
    reply (handleDNSRequest g upstream r) = Some m
    /\ (handleDNSRequest g upstream r = [WriteMsg m]
        \/ handleDNSRequest g upstream r
           = [Exchange r (FallbackDNS (config g)); WriteMsg m]).
Proof.
  rewrite handleDNSRequest_unfold. simpl.
  destruct (negb _ && negb _).
  - destruct (upstream r _) as [resp|]; eexists; split; [reflexivity|by right| |];
      [reflexivity|by right].
  - eexists. split; [reflexivity|by left].
Qed.

(** X13. When no question of the request is answered, an upstream address
    is configured and the exchange succeeds, the client receives the reply
    of the upstream as it is; nothing of the reply built by the loop, its
    rcode NOTIMPLEMENTED included, reaches the client. *)
Theorem upstream_reply_is_relayed (g : Globals)
    (upstream : Msg -> string -> option Msg) (r resp : Msg) :
  (forall q, In q (Question_ r) -> answersQuestion (records g) q = false) ->
  FallbackDNS (config g) <> EmptyString ->
  upstream r (FallbackDNS (config g)) = Some resp ->
  handleDNSRequest g upstream r = [Exchange r (FallbackDNS (config g)); WriteMsg resp]
  /\ reply (handleDNSRequest g upstream r) = Some resp.
Proof.
  intros Hun Hfb Hup. apply existsb_false in Hun.
  rewrite handleDNSRequest_unfold. simpl.
  rewrite answerQuestions_answered, Hun. simpl.
  apply String_eqb_false in Hfb. by rewrite Hfb, Hup.
Qed.

Lemma upstream_reply_is_relayed_witness :
  let nxdomain := mkMsg 7 true OpcodeQuery false true true 3
                    [mkQuestion "mail.example." TypeAAAA ClassINET] [] in
  reply (handleDNSRequest (exampleGlobals "8.8.8.8:53") (fun _ _ => Some nxdomain)
           (query "mail.example." TypeAAAA))
  = Some nxdomain.
Proof.
  intros nxdomain.
  apply (upstream_reply_is_relayed (exampleGlobals "8.8.8.8:53")
           (fun _ _ => Some nxdomain) (query "mail.example." TypeAAAA) nxdomain).
  - intros q [<-|[]]. vm_compute. reflexivity.
  - discriminate.
  - reflexivity.
Defined.

Lemma loop_reply_fields recs qs r :
  let m := fst (answerQuestions recs qs (initialReply r, false)) in
  Id m = Id r /\ Opcode m = Opcode r /\ Response m = true
  /\ Authoritative m = true /\ Question_ m = firstn 1 (Question_ r).
Proof.
  intros m. pose proof (answerQuestions_envelope recs qs (initialReply r) false) as He.
  fold m in He. unfold envelope in He.
  injection He as -> -> -> -> _ _ ->.
  repeat split; simpl; by destruct (Question_ r).
Qed.

(** X14. A reply that the handler builds itself (no upstream configured,
    some question answered, or the exchange failed) carries the id and the
    opcode of the request, is marked as an authoritative response, and
    repeats the first question of the request only.  Its rcode is SERVFAIL
    exactly when the exchange was attempted, and otherwise NOTIMPLEMENTED or
    success. *)
Theorem local_reply_envelope (g : Globals)
    (upstream : Msg -> string -> option Msg) (r m : Msg) :
  reply (handleDNSRequest g upstream r) = Some m ->
  upstream r (FallbackDNS (config g)) = None
  \/ forwarded (handleDNSRequest g upstream r) = false ->
  Id m = Id r
  /\ Opcode m = Opcode r
  /\ Response m = true
  /\ Authoritative m = true
  /\ Question_ m = firstn 1 (Question_ r)
  /\ (Rcode m = RcodeServerFailure
      <-> forwarded (handleDNSRequest g upstream r) = true)
  /\ (Rcode m = RcodeServerFailure \/ Rcode m = RcodeNotImplemented
      \/ Rcode m = RcodeSuccess).
Proof.
  rewrite handleDNSRequest_unfold. cbn zeta.
  pose proof (loop_reply_fields (records g) (Question_ r) r) as Hf.
  pose proof (answerQuestions_Rcode (records g) (Question_ r)
                (initialReply r) false) as Hrc.
  rewrite initialReply_Rcode in Hrc.
  destruct (answerQuestions _ _ _) as [m0 a0]. cbn [fst snd] in *.
  destruct Hf as (HId & HOp & HRe & HAu & HQ).
  destruct (negb a0 && negb _).
  - destruct (upstream r _) as [resp|].
    + intros _ [?|?]; done.
    + intros [= <-] _. simpl. repeat split; try done. by left.
  - intros [= <-] _. repeat split; try done.
    + intros Hsf. rewrite Hrc in Hsf. by destruct (existsb _ _).
    + rewrite Hrc. destruct (existsb _ _); auto.
Qed.

Lemma local_reply_envelope_witness :
  Question_ (setRcode
               (mkMsg 7 true OpcodeQuery true true false RcodeSuccess
                  [mkQuestion "ghost.local." TypeA ClassINET] [])
               RcodeServerFailure)
  = firstn 1 [mkQuestion "ghost.local." TypeA ClassINET;
              mkQuestion "else.local." TypeTXT ClassINET].
Proof.
  pose (r := mkMsg 7 false OpcodeQuery false true false 0
               [mkQuestion "ghost.local." TypeA ClassINET;
                mkQuestion "else.local." TypeTXT ClassINET] []).
  destruct (local_reply_envelope (exampleGlobals "8.8.8.8:53") (fun _ _ => None) r
              (setRcode
                 (mkMsg 7 true OpcodeQuery true true false RcodeSuccess
                    [mkQuestion "ghost.local." TypeA ClassINET] [])
                 RcodeServerFailure)) as (_ & _ & _ & _ & Hq & _).
  - vm_compute. reflexivity.
  - left. reflexivity.
  - exact Hq.
Defined.

(** X15. Without an upstream, a request none of whose normalized names is a
    key of the map gets the initial reply back: rcode success and an empty
    answer section, whatever the types of the questions; the handler has no
    rcode for a name that does not exist. *)
Theorem unknown_names_get_empty_success (g : Globals)
    (upstream : Msg -> string -> option Msg) (r : Msg) :
  FallbackDNS (config g) = EmptyString ->
  (forall q, In q (Question_ r) -> records g !! lookupName q = None) ->
  handleDNSRequest g upstream r = [WriteMsg (initialReply r)]
  /\ Rcode (initialReply r) = RcodeSuccess
  /\ Answer (initialReply r) = [].
Proof.
  intros Hfb Hnone. split; [|done].
  rewrite handleDNSRequest_unfold. simpl.
  rewrite Hfb, String_eqb_refl, andb_false_r.
  assert (Hloop : forall qs st,
             (forall q, In q qs -> records g !! lookupName q = None) ->
             answerQuestions (records g) qs st = st).
  { induction qs as [|q qs IH]; intros st Hqs; [done|].
    unfold answerQuestions in *. simpl.
    assert (answerQuestion (records g) q st = st) as ->.
    { unfold answerQuestion. destruct st as [m0 a0].
      by rewrite (Hqs q) by (by left). }
    apply IH. intros q' Hq'. apply Hqs. by right. }
  by rewrite Hloop.
Qed.

Lemma unknown_names_get_empty_success_witness :
  handleDNSRequest (exampleGlobals EmptyString) (fun _ _ => None)
    (query "ghost.local." TypeAAAA)
  = [WriteMsg (initialReply (query "ghost.local." TypeAAAA))].
Proof.
  apply (unknown_names_get_empty_success (exampleGlobals EmptyString)
           (fun _ _ => None) (query "ghost.local." TypeAAAA)).
  - reflexivity.
  - intros q [<-|[]]. vm_compute. reflexivity.
Defined.

(** ** The reload loop *)

Lemma reloadPass_cases w g :
  reloadPass w g = g
  \/ exists t recs,
       Stat w (HostsFile (config g)) = Some t
       /\ hostsFileModTime g < t
       /\ loadZoneFile w (HostsFile (config g)) = (recs, None)
       /\ reloadPass w g = mkGlobals recs t (config g).
Proof.
  unfold reloadPass. destruct (Stat w _) as [t|]; [|by left].
  destruct (After t (hostsFileModTime g)) eqn:Ha; [|by left].
  destruct (loadZoneFile w _) as [recs [e|]] eqn:Hl; [by left|].
  right. exists t, recs. apply Z.ltb_lt in Ha. done.
Qed.

Lemma reloadZoneIfChanged_cons w ws g :
  reloadZoneIfChanged (w :: ws) g = reloadZoneIfChanged ws (reloadPass w g).
Proof. reflexivity. Qed.

(** X16. The reload loop never changes the configuration and never moves
    the recorded modification time backwards. *)
Theorem reload_keeps_config_and_time_order (ws : list World) (g : Globals) :
  config (reloadZoneIfChanged ws g) = config g
  /\ hostsFileModTime g <= hostsFileModTime (reloadZoneIfChanged ws g).
Proof.
  revert g. induction ws as [|w ws IH]; intros g; [split; [done|simpl; lia]|].
  rewrite reloadZoneIfChanged_cons. destruct (IH (reloadPass w g)) as [Hc Ht].
  destruct (reloadPass_cases w g) as [Hp|(t & recs & _ & Hlt & _ & Hp)];
    rewrite Hp in *; simpl in *; split; try done; lia.
Qed.

(** X17. Whatever the loop observes, the active map is either the one it
    started with or the map of an error-free [loadZoneFile] of one of the
    observed worlds, installed together with the modification time of that
    world; so if the entries of the initial map are valid, the entries of
    the active map are valid at every time. *)
Theorem active_map_comes_from_a_clean_load (ws : list World) (g : Globals) :
  ((records (reloadZoneIfChanged ws g) = records g
    /\ hostsFileModTime (reloadZoneIfChanged ws g) = hostsFileModTime g)
   \/ exists w,
        In w ws
        /\ loadZoneFile w (HostsFile (config g))
           = (records (reloadZoneIfChanged ws g), None)
        /\ Stat w (HostsFile (config g))
           = Some (hostsFileModTime (reloadZoneIfChanged ws g)))
  /\ ((forall name rec, records g !! name = Some rec -> validRecord rec = true) ->
      forall name rec,
        records (reloadZoneIfChanged ws g) !! name = Some rec ->
        validRecord rec = true).
Proof.
  assert (Hfrom : forall ws g,
             (records (reloadZoneIfChanged ws g) = records g
              /\ hostsFileModTime (reloadZoneIfChanged ws g) = hostsFileModTime g)
             \/ exists w,
                  In w ws
                  /\ loadZoneFile w (HostsFile (config g))
                     = (records (reloadZoneIfChanged ws g), None)
                  /\ Stat w (HostsFile (config g))
                     = Some (hostsFileModTime (reloadZoneIfChanged ws g))).
  { clear. induction ws as [|w ws IH]; intros g; [by left|].
    rewrite reloadZoneIfChanged_cons.
    destruct (reloadPass_cases w g) as [Hp|(t & recs & Hst & _ & Hl & Hp)].
    - rewrite Hp. destruct (IH g) as [?|(w' & ? & ?)]; [by left|].
      right. exists w'. split; [by right|done].
    - destruct (IH (reloadPass w g)) as [[Hr Ht]|(w' & Hin & Hl' & Hst')].
      + right. exists w. rewrite Hr, Ht, Hp. simpl. split; [by left|done].
      + right. exists w'. rewrite Hp in Hl', Hst' |- *. simpl in *.
        split; [by right|done]. }
  split; [apply Hfrom|].
  intros Hvalid name rec Hrec.
  destruct (Hfrom ws g) as [[Hr _]|(w & _ & Hl & _)].
  - rewrite Hr in Hrec. eauto.
  - pose proof (loadZoneFile_lookup w (HostsFile (config g)) name) as Hlook.
    rewrite Hl in Hlook. simpl in Hlook. rewrite Hrec in Hlook.
    symmetry in Hlook. apply lastStored_Some in Hlook as (text & _ & Hp).
    by destruct (parseLine_Stored_valid _ _ _ Hp).
Qed.

Lemma active_map_comes_from_a_clean_load_witness :
  validRecord (mkRecord "A" 300 "127.0.0.1" 0) = true.
Proof.
  pose (g := mkGlobals ∅ 0 (exampleConfig EmptyString)).
  destruct (active_map_comes_from_a_clean_load [exampleWorld] g) as [_ Hv].
  apply (Hv ltac:(intros name rec H; vm_compute in H; discriminate)
            "example.local.").
  vm_compute. reflexivity.
Defined.

(** X18. A second pass over the same world changes nothing: a file is loaded
    once for each modification time, and a failed load is not recorded. *)
Theorem reload_pass_is_idempotent (w : World) (g : Globals) :
  reloadPass w (reloadPass w g) = reloadPass w g.
Proof.
  destruct (reloadPass_cases w g) as [Hp|(t & recs & Hst & _ & _ & Hp)];
    rewrite Hp; [done|].
  unfold reloadPass at 1. simpl. rewrite Hst. unfold After.
  by rewrite Z.ltb_irrefl.
Qed.

(** X19. A pass changes the globals only when the modification time of the
    file is strictly newer than the recorded one and the load returns no
    error; it then replaces the whole map by the map of the file, so that a
    name that no scanned line of the new file defines is no longer
    answered, and records the new time. *)
Theorem reload_only_for_newer_file (w : World) (g : Globals) :
  reloadPass w g <> g ->
  exists t,
    Stat w (HostsFile (config g)) = Some t
    /\ hostsFileModTime g < t
    /\ snd (loadZoneFile w (HostsFile (config g))) = None
    /\ reloadPass w g
       = mkGlobals (fst (loadZoneFile w (HostsFile (config g)))) t (config g)
    /\ forall name,
         lastStored name (scannedLines w (HostsFile (config g))) = None ->
         records (reloadPass w g) !! name = None.
Proof.
  intros Hne. destruct (reloadPass_cases w g) as [Hp|(t & recs & Hst & Hlt & Hl & Hp)];
    [done|].
  exists t. rewrite Hp, Hl. simpl. repeat split; try done.
  intros name Hnone.
  pose proof (loadZoneFile_lookup w (HostsFile (config g)) name) as Hlook.
  rewrite Hl in Hlook. simpl in Hlook. by rewrite Hlook.
Qed.

Lemma reload_only_for_newer_file_witness :
  let g := mkGlobals {[ "old.local." := mkRecord "A" 60 "9.9.9.9" 0 ]} 5
             (exampleConfig EmptyString) in
  records (reloadPass exampleWorld g) !! "old.local." = None.
Proof.
  intros g.
  destruct (reload_only_for_newer_file exampleWorld g) as (t & _ & _ & _ & _ & Hgone).
  - vm_compute. discriminate.
  - apply Hgone. vm_compute. reflexivity.
Defined.

(** ** Startup and the first poll *)

(** X20. When startup reaches the serving state, the globals hold the map of
    the zone file, loaded without error, and the configuration; a reload
    pass over the world that startup saw changes nothing, so the file is not
    loaded a second time until its modification time advances. *)
Theorem startup_then_poll_is_stable (w : World) (cfg : Config) (g : Globals) :
  main w cfg = Serving g ->
  loadZoneFile w (HostsFile cfg) = (records g, None)
  /\ config g = cfg
  /\ hostsFileModTime g = default zeroTime (Stat w (HostsFile cfg))
  /\ reloadPass w g = g.
Proof.
  unfold main. destruct (loadZoneFile w (HostsFile cfg)) as [recs [e|]] eqn:Hl; [done|].
  destruct (Listen w _); [|done]. intros [= <-]. simpl.
  split; [done|]. split; [done|]. split; [by destruct (Stat w _)|].
  unfold reloadPass. simpl. destruct (Stat w (HostsFile cfg)) as [t|]; [|done].
  unfold After. by rewrite Z.ltb_irrefl.
Qed.

Lemma startup_then_poll_is_stable_witness :
  reloadPass exampleWorld (exampleGlobals EmptyString) = exampleGlobals EmptyString.
Proof.
  apply (startup_then_poll_is_stable exampleWorld (exampleConfig EmptyString)
           (exampleGlobals EmptyString)).
  vm_compute. reflexivity.
Defined.

(** X21. A command-line flag that is given (a non-empty string, a positive
    poll frequency) replaces the setting of the configuration file, and a
    flag that is not given leaves it: no flag can set a configured port,
    zone file or upstream to the empty string, a poll frequency that is
    zero or negative is ignored, and the log level only comes from the
    file.  Applying the same flags to the result changes nothing. *)
Theorem flags_override_the_file (loadConfig : string -> Config) (f : Flags) :
  let c := loadConfig (flagConfig f) in
  let c' := parseFlags loadConfig f in
  (flagPort f <> EmptyString -> ListenPort c' = flagPort f)
  /\ (flagPort f = EmptyString -> ListenPort c' = ListenPort c)
  /\ (flagZones f <> EmptyString -> HostsFile c' = flagZones f)
  /\ (flagZones f = EmptyString -> HostsFile c' = HostsFile c)
  /\ (flagFallback f <> EmptyString -> FallbackDNS c' = flagFallback f)
  /\ (flagFallback f = EmptyString -> FallbackDNS c' = FallbackDNS c)
  /\ (0 < flagPoll f -> PollFreq c' = flagPoll f)
  /\ (flagPoll f <= 0 -> PollFreq c' = PollFreq c)
  /\ LogLevel c' = LogLevel c
  /\ (FallbackDNS c <> EmptyString -> FallbackDNS c' <> EmptyString)
  /\ parseFlags (fun _ => c') f = c'.
Proof.
  intros c c'. unfold c', parseFlags. fold c. simpl.
  destruct (String_eqb (flagPort f) EmptyString) eqn:Ep;
    destruct (String_eqb (flagZones f) EmptyString) eqn:Ez;
    destruct (String_eqb (flagFallback f) EmptyString) eqn:Ef;
    destruct (Z.ltb_spec 0 (flagPoll f)) as [Hpoll|Hpoll];
    rewrite ?String_eqb_true, ?String_eqb_false in *; simpl;
    repeat split; intros; try done; try lia.
Qed.

Lemma flags_override_the_file_witness :
  let file := mkConfig "1053" "zones.txt" "info" 5 "8.8.8.8:53" in
  let f := mkFlags "config.yaml" "5353" EmptyString EmptyString (-1) in
  ListenPort (parseFlags (fun _ => file) f) = "5353"
  /\ PollFreq (parseFlags (fun _ => file) f) = 5.
Proof.
  intros file f.
  destruct (flags_override_the_file (fun _ => file) f)
    as (Hp & _ & _ & _ & _ & _ & _ & Hpoll & _).
  split; [apply Hp; discriminate|apply Hpoll; vm_compute; discriminate].
Defined.

(** ** What a reply depends on, and lines that are skipped *)

(** X22. The reply to a request depends on the globals only through the
    entries of the map at the normalized names of its questions and through
    the upstream address: a reload that leaves those entries alone, or any
    change of the other settings, does not change what the handler does. *)
Theorem reply_depends_on_asked_names_only (g1 g2 : Globals)
    (upstream : Msg -> string -> option Msg) (r : Msg) :
  FallbackDNS (config g1) = FallbackDNS (config g2) ->
  (forall q, In q (Question_ r) ->
     records g1 !! lookupName q = records g2 !! lookupName q) ->
  handleDNSRequest g1 upstream r = handleDNSRequest g2 upstream r.
Proof.
  intros Hfb Hrec. rewrite !handleDNSRequest_unfold. simpl.
  by rewrite Hfb, (answerQuestions_ext _ (records g2)).
Qed.

Lemma reply_depends_on_asked_names_only_witness :
  let g2 := mkGlobals (<["new.local." := mkRecord "A" 60 "9.9.9.9" 0]>
                         (records (exampleGlobals EmptyString)))
              20 (mkConfig "53" "other.txt" "debug" 1 EmptyString) in
  handleDNSRequest (exampleGlobals EmptyString) (fun _ _ => None)
    (query "alias.local." TypeA)
  = handleDNSRequest g2 (fun _ _ => None) (query "alias.local." TypeA).
Proof.
  intros g2.
  apply (reply_depends_on_asked_names_only (exampleGlobals EmptyString) g2).
  - reflexivity.
  - intros q [<-|[]]. vm_compute. reflexivity.
Defined.

Lemma TrimLeftSpace_keeps_last x c :
  isSpace c = false ->
  exists y, TrimLeftSpace (x +:+ String c EmptyString) = y +:+ String c EmptyString.
Proof.
  intros Hc. induction x as [|a x IH].
  - exists EmptyString. simpl. by rewrite Hc.
  - rewrite String_app_cons. simpl. destruct (isSpace a); [exact IH|].
    exists (String a x). by rewrite String_app_cons.
Qed.

Lemma TrimSpace_head c rest :
  isSpace c = false -> exists z, TrimSpace (String c rest) = String c z.
Proof.
  intros Hc. unfold TrimSpace. simpl. rewrite Hc.
  rewrite String_rev_cons.
  destruct (TrimLeftSpace_keeps_last (String.rev rest) c Hc) as [y ->].
  rewrite String_rev_app. by eexists.
Qed.

Lemma HasPrefix_cons c z : HasPrefix (String c z) (String c EmptyString) = true.
Proof.
  unfold HasPrefix. simpl. destruct (ascii_dec c c); [|done]. by destruct z.
Qed.

(** X23. A line of white space only, and a line whose first byte after
    leading white space is a semicolon or a hash sign, is skipped whatever
    follows: it stores nothing and gives no diagnostic. *)
Theorem blank_and_comment_lines_are_skipped :
  (forall a, allSpace a = true -> parseLine a = Ignored)
  /\ (forall a c rest,
        allSpace a = true ->
        c = ";"%char \/ c = "#"%char ->
        parseLine (a +:+ String c rest) = Ignored).
Proof.
  split.
  - intros a Ha. unfold parseLine, TrimSpace.
    by rewrite (TrimLeftSpace_allSpace a Ha).
  - intros a c rest Ha Hc. unfold parseLine. rewrite TrimSpace_app_l by done.
    destruct (TrimSpace_head c rest) as [z ->]; [by destruct Hc as [-> | ->]|].
    destruct Hc as [-> | ->].
    + by rewrite (HasPrefix_cons ";"), orb_true_r.
    + by rewrite (HasPrefix_cons "#"), orb_true_r.
Qed.

Lemma blank_and_comment_lines_are_skipped_witness :
  parseLine ("  " +:+ String ";"%char " example.local. 300 IN A 127.0.0.1") = Ignored.
Proof.
  apply (proj2 blank_and_comment_lines_are_skipped "  " ";"%char
           " example.local. 300 IN A 127.0.0.1"); [reflexivity|by left].
Defined.
